(** * SolanaService: holder pagination, aggregation and HHI computation

    A shallow embedding of [SolanaService] (the Helius-backed implementation
    of [IBlockchainService]): [rpcRequest], [getAllTokenHolders],
    [calculateHHI], [emptyResult] and [getConcentrationLevel], followed by the
    properties of the pipeline.

    Conventions of the embedding.
    - A JS string is the sequence of its UTF-16 code units.  The strings
      that the program receives (mints, owners, amounts, the messages of the
      transport) are taken with code units below 256 and are a [string], one
      character per code unit.  The message of an error is a [text], a list
      of code units as numbers: the engine (V8) marks an operand that it
      cuts with U+2026, which is no character of a [string].
    - A JS [BigInt] is a [Z]; BigInt division truncates towards zero
      ([Z.quot]).
    - A JS exception is the [Throw] alternative of [completion].
    - A JS [number] is the rational that the binary64 number denotes (an
      integer, for the image of a BigInt): [Number], [fdiv] and [fsub]
      round to 53 significant bits, ties to even.  Infinity, NaN and the
      numbers below the normal range are outside the model; the service
      reaches them only with amounts of more than 300 digits.
    - The remote service is a function from requests to HTTP outcomes; the
      [while] loop of [getAllTokenHolders] takes fuel and records the
      requests it issues.  An [async] function that returns is [Some] of its
      completion; [None] is a loop that has not ended within the fuel. *)

From stdpp Require Import base option list gmap strings pretty.
From Stdlib Require Import Ascii ZArith QArith Qround Lia Lqa.
From Stdlib Require Import Permutation Sorted.

Open Scope Z_scope.

(** ** Exceptions *)

Module JS.

(** The text of a message: UTF-16 code units. *)
Definition text : Type := list N.

(** The text of a string of the model. *)
Fixpoint text_of (s : string) : text :=
  match s with
  | EmptyString => []
  | String c s' => N_of_ascii c :: text_of s'
  end.

Coercion text_of : string >-> text.

Inductive error : Type :=
| Error (message : text)
| SyntaxError (message : text)
| TypeError (message : text).

(** [error.message] *)
Definition message (e : error) : text :=
  match e with
  | Error m | SyntaxError m | TypeError m => m
  end.

Inductive completion (A : Type) : Type :=
| Normal (a : A)
| Throw (e : error).
Arguments Normal {A} a.
Arguments Throw {A} e.

Definition bind {A B} (m : completion A) (k : A -> completion B)
  : completion B :=
  match m with
  | Normal a => k a
  | Throw e => Throw e
  end.

(** [try { body } catch (error) { handler }] *)
Definition try_catch {A} (body : completion A)
    (handler : error -> completion A) : completion A :=
  match body with
  | Normal a => Normal a
  | Throw e => handler e
  end.

(** *** [BigInt(string)]

    StringToBigInt: surrounding white space is trimmed, the empty string is
    0n, a decimal literal may carry a sign, binary, octal and hexadecimal
    literals carry a prefix and no sign; anything else is a SyntaxError.
    Of the white space and the line terminators of the language, the
    strings of the model have TAB, LF, VT, FF, CR, SP and the no-break space
    U+00A0; [String.prototype.trim] removes the same characters. *)

Definition is_white_space (c : ascii) : bool :=
  let n := nat_of_ascii c in
  ((9 <=? n)%nat && (n <=? 13)%nat) || (n =? 32)%nat || (n =? 160)%nat.

Fixpoint trim_start (s : string) : string :=
  match s with
  | String c s' => if is_white_space c then trim_start s' else s
  | EmptyString => EmptyString
  end.

Fixpoint trim_end (s : string) : string :=
  match s with
  | String c s' =>
      match trim_end s' with
      | EmptyString => if is_white_space c then EmptyString
                       else String c EmptyString
      | t => String c t
      end
  | EmptyString => EmptyString
  end.

Definition trim (s : string) : string := trim_end (trim_start s).

Definition digit_value (c : ascii) : option Z :=
  let n := Z.of_nat (nat_of_ascii c) in
  if (48 <=? n) && (n <=? 57) then Some (n - 48)
  else if (97 <=? n) && (n <=? 102) then Some (n - 87)
  else if (65 <=? n) && (n <=? 70) then Some (n - 55)
  else None.

Fixpoint digits_value (radix acc : Z) (s : string) : option Z :=
  match s with
  | EmptyString => Some acc
  | String c s' =>
      match digit_value c with
      | Some d =>
          if d <? radix then digits_value radix (acc * radix + d) s'
          else None
      | None => None
      end
  end.

Definition parse_digits (radix : Z) (s : string) : option Z :=
  match s with
  | EmptyString => None
  | _ => digits_value radix 0 s
  end.

(** The radix announced by the character after a leading 0. *)
Definition radix_of_prefix (c : ascii) : option Z :=
  if (c =? "x")%char || (c =? "X")%char then Some 16
  else if (c =? "o")%char || (c =? "O")%char then Some 8
  else if (c =? "b")%char || (c =? "B")%char then Some 2
  else None.

Definition non_decimal_literal (t : string) : option (Z * string) :=
  match t with
  | String c (String p r) =>
      if (c =? "0")%char then (fun radix => (radix, r)) <$> radix_of_prefix p
      else None
  | _ => None
  end.

Definition StringToBigInt (s : string) : option Z :=
  let t := trim s in
  match t with
  | EmptyString => Some 0
  | String c r =>
      if (c =? "+")%char then parse_digits 10 r
      else if (c =? "-")%char then Z.opp <$> parse_digits 10 r
      else
        match non_decimal_literal t with
        | Some (radix, r') => parse_digits radix r'
        | None => parse_digits 10 t
        end
  end.

(** The operand as the message of the SyntaxError shows it: V8 keeps the
    first [kMaxRenderedLength] code units of a longer string and appends the
    horizontal ellipsis U+2026. *)
Definition kMaxRenderedLength : nat := 1000.

Definition ellipsis : N := 8230.

Definition rendered (s : string) : text :=
  if (kMaxRenderedLength <? String.length s)%nat
  then text_of (String.substring 0 kMaxRenderedLength s) ++ [ellipsis]
  else text_of s.

Definition BigInt (s : string) : completion Z :=
  match StringToBigInt s with
  | Some z => Normal z
  | None =>
      Throw (SyntaxError (text_of "Cannot convert " ++ rendered s
                          ++ text_of " to a BigInt"))
  end.

(** [bigint.toString()] *)
Definition toString (z : Z) : string := pretty z.

(** [Number(bigint)]: the nearest integer with 53 significant bits, ties
    to the even significand. *)
Definition Number (z : Z) : Z :=
  let m := Z.abs z in
  let e := Z.log2 m - 52 in
  if e <=? 0 then z
  else
    let q := Z.shiftr m e in
    let r := m - Z.shiftl q e in
    let half := Z.shiftl 1 (e - 1) in
    let q' := if (half <? r) || ((half =? r) && Z.odd q) then q + 1 else q in
    Z.sgn z * Z.shiftl q' e.

(** *** Numbers with a fraction

    A binary64 number is kept as the rational it denotes.  [binary64 x] is
    the number nearest to [x], ties to the even significand; numbers below
    the normal range and the overflow to Infinity are outside the model. *)

(** The integer nearest to [a / b], ties to even, for [0 <= a] and
    [0 < b]. *)
Definition round_half_even (a b : Z) : Z :=
  let q := a / b in
  let r := a mod b in
  if 2 * r <? b then q
  else if b <? 2 * r then q + 1
  else if Z.even q then q else q + 1.

(** The exponent [e] with [2 ^ e <= n / d < 2 ^ (e + 1)], for [0 < n] and
    [0 < d]. *)
Definition exponent (n d : Z) : Z :=
  let k := Z.log2 n - Z.log2 d in
  if (if 0 <=? k then d * 2 ^ k <=? n else d <=? n * 2 ^ (- k))
  then k else k - 1.

(** The number nearest to [n / d], for [0 < n] and [0 < d]: a significand
    of 53 bits, in units of [2 ^ (e - 52)]. *)
Definition nearest64 (n d : Z) : Q :=
  let u := exponent n d - 52 in
  if 0 <=? u
  then inject_Z (round_half_even n (d * 2 ^ u) * 2 ^ u)
  else Qred (Qmake (round_half_even (n * 2 ^ (- u)) d)
                   (Z.to_pos (2 ^ (- u)))).

Definition binary64 (x : Q) : Q :=
  match Qnum x with
  | Z0 => 0%Q
  | Zpos n => nearest64 (Zpos n) (Zpos (Qden x))
  | Zneg n => Qopp (nearest64 (Zpos n) (Zpos (Qden x)))
  end.

(** [x / y] and [x - y] on numbers. *)
Definition fdiv (x y : Q) : Q := binary64 (x / y).
Definition fsub (x y : Q) : Q := binary64 (x - y).

End JS.

Import JS.

#[global] Instance completion_ret : MRet completion := @Normal.
#[global] Instance completion_bind : MBind completion :=
  fun A B k m => JS.bind m k.

(** ** Data model *)

(** [{ account: string; amount: string }] *)
Record HolderRecord : Type := mkHolder {
  account : string;
  amount : string;
}.

(** An element of [topHolders]. *)
Record TopHolder : Type := mkTopHolder {
  th_account : string;
  th_amount : string;
  percentage : Q;
}.

Record HHIResult : Type := mkResult {
  hhi : Z;
  totalSupply : string;
  holderCount : nat;
  topHolders : list TopHolder;
  concentrationLevel : string;
}.

Definition EXCLUDED_ADDRESSES : gset string :=
  {[ "11111111111111111111111111111111";
     "1nc1nerator11111111111111111111111111111111" ]}.

(** [set.has(x)] *)
Definition has (s : gset string) (x : string) : bool := bool_decide (x ∈ s).

Definition DEFAULT_PAGE_SIZE : nat := 1000.

(** ** The remote service *)

(** One element of [response.value].  The code reads
    [acc.account.data.parsed.info.owner] and
    [acc.account.data.parsed.info.tokenAmount.amount]; reading a property of
    [undefined] is a TypeError. *)
Inductive RawAccount : Type :=
| Parsed (owner amount : string)
  (** both paths exist *)
| ParsedNoAmount (owner : string)
  (** [info.owner] exists, [info.tokenAmount] is undefined *)
| Unparsed.
  (** the path to [info] is broken *)

(** [response.data] of the POST. *)
Inductive RpcData : Type :=
| RpcError (message : string)
  (** [{ error: { message } }] *)
| RpcResult (value : option (list RawAccount)).
  (** [{ result }]; [None] when [result] or [result.value] is missing *)

(** What [axios.post] does. *)
Inductive HttpOutcome : Type :=
| AxiosError (message : string)
| HttpResponse (data : RpcData).

(** The parameters of a [getProgramAccounts] call that vary. *)
Record Request : Type := mkRequest {
  req_mint : string;
  req_page : nat;
  req_limit : nat;
}.

Definition Upstream : Type := Request -> HttpOutcome.

(** [rpcRequest]: the result of the call, or an exception.  An axios failure
    is caught and thrown again as an "API Error"; the "RPC Error" thrown for
    an error envelope passes through the same [catch] unchanged. *)
Definition rpcRequest (up : Upstream) (req : Request)
  : completion (option (list RawAccount)) :=
  match up req with
  | AxiosError m => Throw (Error ("API Error: " +:+ m))
  | HttpResponse (RpcError m) => Throw (Error ("RPC Error: " +:+ m))
  | HttpResponse (RpcResult result) => Normal result
  end.

(** The predicate of [response.value.filter]. *)
Definition keep (acc : RawAccount) : completion bool :=
  match acc with
  | Parsed owner amount =>
      Normal (negb (has EXCLUDED_ADDRESSES owner)
              && negb (String.eqb amount "0"))
  | ParsedNoAmount owner =>
      if negb (has EXCLUDED_ADDRESSES owner)
      then Throw (TypeError
                    "Cannot read properties of undefined (reading 'amount')")
      else Normal false
  | Unparsed =>
      Throw (TypeError "Cannot read properties of undefined (reading 'owner')")
  end.

(** [array.filter(p)] with a predicate that may throw. *)
Fixpoint filterM {A} (p : A -> completion bool) (l : list A)
  : completion (list A) :=
  match l with
  | [] => Normal []
  | x :: l' =>
      b ← p x;
      r ← filterM p l';
      Normal (if b : bool then x :: r else r)
  end.

(** The callback of [.map] in [getAllTokenHolders]. *)
Definition toHolder (acc : RawAccount) : completion HolderRecord :=
  match acc with
  | Parsed owner amount => Normal (mkHolder owner amount)
  | ParsedNoAmount _ =>
      Throw (TypeError "Cannot read properties of undefined (reading 'amount')")
  | Unparsed =>
      Throw (TypeError "Cannot read properties of undefined (reading 'owner')")
  end.

(** [array.map(f)] with a callback that may throw. *)
Fixpoint mapM' {A B} (f : A -> completion B) (l : list A)
  : completion (list B) :=
  match l with
  | [] => Normal []
  | x :: l' =>
      y ← f x;
      r ← mapM' f l';
      Normal (y :: r)
  end.

(** [response.value.filter(...).map(...)] *)
Definition pageHolders (value : list RawAccount)
  : completion (list HolderRecord) :=
  kept ← filterM keep value;
  mapM' toHolder kept.

(** The body of the [try] block of one iteration of the loop:
    [None] is the [break] taken when [!response?.value?.length]. *)
Definition fetchPage (up : Upstream) (req : Request)
  : completion (option (list HolderRecord)) :=
  response ← rpcRequest up req;
  match response with
  | None | Some [] => Normal None
  | Some value => holders ← pageHolders value; Normal (Some holders)
  end.

(** The variables of the loop after an iteration. *)
Inductive LoopState : Type :=
| More (allHolders : list HolderRecord) (page : nat)
  (** [hasMore] is still true *)
| Done (allHolders : list HolderRecord).
  (** [hasMore = false], or [break] *)

(** One iteration of [while (hasMore)]: the [try] block and its [catch],
    which keeps the holders accumulated so far. *)
Definition iteration (up : Upstream) (mint : string) (pageSize : nat)
    (allHolders : list HolderRecord) (page : nat) : completion LoopState :=
  try_catch
    (fetched ← fetchPage up (mkRequest mint page pageSize);
     match fetched with
     | None => Normal (Done allHolders)
     | Some holders =>
         let allHolders' := (allHolders ++ holders)%list in
         if (length holders <? pageSize)%nat then Normal (Done allHolders')
         else Normal (More allHolders' (S page))
     end)
    (fun error => Normal (Done allHolders)).

(** The [while (hasMore)] loop and [return allHolders].  [log] lists the
    requests issued so far, oldest first. *)
Fixpoint fetchLoop (fuel : nat) (up : Upstream) (mint : string)
    (pageSize : nat) (allHolders : list HolderRecord) (page : nat)
    (log : list Request)
  : option (completion (list HolderRecord) * list Request) :=
  match fuel with
  | O => None
  | S fuel' =>
      let log' := log ++ [mkRequest mint page pageSize] in
      match iteration up mint pageSize allHolders page with
      | Throw error => Some (Throw error, log')
      | Normal (Done allHolders') => Some (Normal allHolders', log')
      | Normal (More allHolders' page') =>
          fetchLoop fuel' up mint pageSize allHolders' page' log'
      end
  end.

(** [getAllTokenHolders(mint, pageSize)], with the requests it issued. *)
Definition getAllTokenHolders (fuel : nat) (up : Upstream) (mint : string)
    (pageSize : nat)
  : option (completion (list HolderRecord) * list Request) :=
  fetchLoop fuel up mint pageSize [] 0%nat [].

(** [getTokenBalances(mint)] *)
Definition getTokenBalances (fuel : nat) (up : Upstream) (mint : string)
  : option (completion (list HolderRecord)) :=
  fst <$> getAllTokenHolders fuel up mint DEFAULT_PAGE_SIZE.

(** ** The HHI engine *)

Definition emptyResult : HHIResult :=
  {| hhi := 0;
     totalSupply := "0";
     holderCount := 0;
     topHolders := [];
     concentrationLevel := "No active holders" |}.

Definition getConcentrationLevel (hhi : Z) : string :=
  if 5000 <=? hhi then "Extreme concentration (risk of manipulation)"
  else if 2500 <=? hhi then "High concentration"
  else if 1500 <=? hhi then "Moderate concentration"
  else "Decentralized".

(** [array.reduce(f, init)] with a callback that may throw. *)
Fixpoint reduceM {A B} (f : B -> A -> completion B) (init : B) (l : list A)
  : completion B :=
  match l with
  | [] => Normal init
  | x :: l' => b ← f init x; reduceM f b l'
  end.

(** Step 2: [holders.reduce((sum, holder) => sum + BigInt(holder.amount),
    BigInt(0))] *)
Definition sumAmounts (holders : list HolderRecord) : completion Z :=
  reduceM (fun sum holder => a ← BigInt (amount holder); Normal (sum + a))
          0 holders.

(** [array.map(f)] with a callback that updates a captured variable (here
    [hhiSum]) and may throw. *)
Fixpoint mapAccumM {S A B} (f : S -> A -> completion (S * B)) (s : S)
    (l : list A) : completion (S * list B) :=
  match l with
  | [] => Normal (s, [])
  | x :: l' =>
      '(s1, y) ← f s x;
      '(s2, r) ← mapAccumM f s1 l';
      Normal (s2, y :: r)
  end.

(** The callback of [holders.map] in step 3. *)
Definition withPercentage (totalSupply hhiSum : Z) (holder : HolderRecord)
  : completion (Z * TopHolder) :=
  a ← BigInt (amount holder);
  let percentage :=
    fdiv (inject_Z (Number ((a * 1000000) ÷ totalSupply))) 10000 in
  let squared := (a * a * 10000) ÷ (totalSupply * totalSupply) in
  Normal (hhiSum + squared,
          {| th_account := account holder;
             th_amount := amount holder;
             percentage := percentage |}).

(** [array.sort(compare)]: the sort is stable; an element moves in front of
    another one only when [compare] is positive for the pair. *)
Fixpoint sort_insert {A} (compare : A -> A -> Q) (x : A) (l : list A)
  : list A :=
  match l with
  | [] => [x]
  | y :: l' =>
      if Qle_bool (compare x y) 0 then x :: l
      else y :: sort_insert compare x l'
  end.

Fixpoint sort {A} (compare : A -> A -> Q) (l : list A) : list A :=
  match l with
  | [] => []
  | x :: l' => sort_insert compare x (sort compare l')
  end.

(** [(a, b) => b.percentage - a.percentage] *)
Definition byPercentageDesc (a b : TopHolder) : Q :=
  fsub (percentage b) (percentage a).

(** The [try] block of [calculateHHI] after the holders are fetched. *)
Definition computeHHI (holders : list HolderRecord) : completion HHIResult :=
  if (length holders =? 0)%nat then Normal emptyResult
  else
    totalSupply ← sumAmounts holders;
    if totalSupply =? 0 then Normal emptyResult
    else
      '(hhiSum, holdersWithPercentage) ←
        mapAccumM (withPercentage totalSupply) 0 holders;
      let hhi := Number hhiSum in
      let sortedHolders := sort byPercentageDesc holdersWithPercentage in
      let concentrationLevel := getConcentrationLevel hhi in
      Normal {| hhi := hhi;
                totalSupply := toString totalSupply;
                holderCount := length holders;
                topHolders := take 10 sortedHolders;
                concentrationLevel := concentrationLevel |}.

(** [calculateHHI] from the completion of [getAllTokenHolders] on: the
    [try] block and its [catch]. *)
Definition calculateHHI_after (fetched : completion (list HolderRecord))
  : completion HHIResult :=
  try_catch (holders ← fetched; computeHHI holders)
    (fun error =>
       Throw (Error (text_of "HHI calculation failed: " ++ message error))).

(** [calculateHHI] when [getAllTokenHolders] has returned [holders]. *)
Definition calculateHHI_of (holders : list HolderRecord)
  : completion HHIResult :=
  calculateHHI_after (Normal holders).

(** [calculateHHI(mint)] *)
Definition calculateHHI (fuel : nat) (up : Upstream) (mint : string)
  : option (completion HHIResult) :=
  '(fetched, _) ← getAllTokenHolders fuel up mint DEFAULT_PAGE_SIZE;
  Some (calculateHHI_after fetched).

(** ** The controller *)

(** [interface IBlockchainService]: each method returns a promise; [None] is
    a promise that is never settled. *)
Record IBlockchainService : Type := {
  svc_getTokenBalances : string -> option (completion (list HolderRecord));
  svc_calculateHHI : string -> option (completion HHIResult);
}.

(** [new SolanaService(apiKey)], talking to the remote service [up]. *)
Definition SolanaService (fuel : nat) (up : Upstream) : IBlockchainService :=
  {| svc_getTokenBalances := getTokenBalances fuel up;
     svc_calculateHHI := calculateHHI fuel up |}.

Module HhiController.

(** [req.query.mint]: absent, a string, or an array or object of the query
    parser. *)
Inductive QueryValue : Type :=
| Absent
| Text (s : string)
| Structured.

(** The JSON body of a response. *)
Inductive Body : Type :=
| Success (data : HHIResult)
  (** [{ success: true, data }] *)
| Failure (message : text) (error : option text).
  (** [{ success: false, message }], with [error] in a 500 *)

(** [res.status(status).json(body)] *)
Record Reply : Type := {
  status : nat;
  body : Body;
}.

(** A character of the class [[1-9A-HJ-NP-Za-km-z]]. *)
Definition is_base58 (c : ascii) : bool :=
  let n := nat_of_ascii c in
  (((49 <=? n) && (n <=? 57))
   || ((65 <=? n) && (n <=? 72))
   || ((74 <=? n) && (n <=? 78))
   || ((80 <=? n) && (n <=? 90))
   || ((97 <=? n) && (n <=? 107))
   || ((109 <=? n) && (n <=? 122)))%nat.

Fixpoint all_base58 (s : string) : bool :=
  match s with
  | EmptyString => true
  | String c s' => is_base58 c && all_base58 s'
  end.

(** [/^[1-9A-HJ-NP-Za-km-z]{32,44}$/.test(address)] *)
Definition isValidSolanaAddress (address : string) : bool :=
  (32 <=? String.length address)%nat && (String.length address <=? 44)%nat
  && all_base58 address.

(** [s.startsWith(sub)] *)
Fixpoint startsWith (s sub : text) : bool :=
  match sub, s with
  | [], _ => true
  | _ :: _, [] => false
  | c :: sub', d :: s' => (c =? d)%N && startsWith s' sub'
  end.

(** [s.includes(sub)] *)
Fixpoint includes (s sub : text) : bool :=
  startsWith s sub
  || match s with
     | [] => false
     | _ :: s' => includes s' sub
     end.

(** The [message] of the 500 response for a caught [Error]. *)
Definition errorMessage (e : error) : text :=
  if includes (message e) "Invalid token" || includes (message e) "not found"
  then text_of "The specified token mint address was not found or is invalid"
  else if includes (message e) "API Error"
  then text_of "Error connecting to Solana RPC service"
  else message e.

(** [getHHI(req, res)]: the response sent, if the service call ends. *)
Definition getHHI (blockchainService : IBlockchainService)
    (mint : QueryValue) : option Reply :=
  match mint with
  | Text s =>
      if String.eqb s EmptyString
      then Some {| status := 400;
                   body := Failure "Invalid or missing token mint address"
                                   None |}
      else if negb (isValidSolanaAddress s)
      then Some {| status := 400;
                   body := Failure "Invalid Solana token mint address format"
                                   None |}
      else
        outcome ← svc_calculateHHI blockchainService s;
        match outcome with
        | Normal result => Some {| status := 200; body := Success result |}
        | Throw error =>
            Some {| status := 500;
                    body := Failure (errorMessage error)
                                    (Some (message error)) |}
        end
  | Absent | Structured =>
      Some {| status := 400;
              body := Failure "Invalid or missing token mint address" None |}
  end.

End HhiController.

(** ** The page *)

Module HhiCalculator.

Import HhiController.

(** What [axios.get] gives the page: the body of a 2xx response, or an
    error with the response, with the request only, or with neither. *)
Inductive AxiosResult : Type :=
| Resolved (data : Body)
| RejectedResponse (status : nat) (message : option text)
  (** [err.response], with [err.response.data?.message] *)
| RejectedRequest
  (** [err.request] *)
| RejectedSetup (message : text).
  (** [err.message] *)

(** [axios.get] against a server that sends [reply]: a status outside 2xx
    rejects. *)
Definition axiosGet (reply : Reply) : AxiosResult :=
  if (200 <=? status reply)%nat && (status reply <? 300)%nat
  then Resolved (body reply)
  else RejectedResponse (status reply)
         match body reply with
         | Failure message _ => Some message
         | Success _ => None
         end.

(** The state of the component. *)
Record State : Type := {
  mintAddress : string;
  loading : bool;
  error : option text;
  result : option HHIResult;
}.

(** The validation of the page, with the regular expression of the
    controller. *)
Definition isValidSolanaAddress (address : string) : bool :=
  (32 <=? String.length address)%nat && (String.length address <=? 44)%nat
  && all_base58 address.

(** [a || b] on strings: the empty string is falsy. *)
Definition or_else (a : option text) (b : text) : text :=
  match a with
  | Some (c :: s) => c :: s
  | _ => b
  end.

(** [handleSubmit(e)]: the state after the handler, for a call
    [api.getHHI] that gives [send mint] ([None]: never settled). *)
Definition handleSubmit (send : string -> option AxiosResult) (st : State)
  : option State :=
  let mint := trim (mintAddress st) in
  if String.eqb mint EmptyString
  then Some {| mintAddress := mintAddress st; loading := loading st;
               error :=
                 Some (text_of "Please enter a valid token mint address");
               result := result st |}
  else if negb (isValidSolanaAddress mint)
  then Some {| mintAddress := mintAddress st; loading := loading st;
               error :=
                 Some (text_of "Invalid Solana token mint address format");
               result := result st |}
  else
    response ← send mint;
    Some
      match response with
      | Resolved (Success data) =>
          {| mintAddress := mintAddress st; loading := false;
             error := None; result := Some data |}
      | Resolved (Failure message _) =>
          {| mintAddress := mintAddress st; loading := false;
             error := Some (or_else (Some message) "Failed to calculate HHI");
             result := None |}
      | RejectedResponse status message =>
          {| mintAddress := mintAddress st; loading := false;
             error := Some (or_else message
                              ("Server error: " +:+ pretty status));
             result := None |}
      | RejectedRequest =>
          {| mintAddress := mintAddress st; loading := false;
             error :=
               Some (text_of
                 "No response from server. Please check your connection.");
             result := None |}
      | RejectedSetup message =>
          {| mintAddress := mintAddress st; loading := false;
             error := Some (or_else (Some message)
                              "An unknown error occurred");
             result := None |}
      end.

(** [truncateAddress(address)] *)
Definition truncateAddress (address : string) : string :=
  if String.eqb address EmptyString then EmptyString
  else String.substring 0 4 address +:+ "..."
       +:+ String.substring (String.length address - 4) 4 address.

(** An entry of the pie chart. *)
Record Slice : Type := {
  name : string;
  value : Q;
  fullAddress : string;
}.

(** [x + y] on numbers. *)
Definition fadd (x y : Q) : Q := binary64 (x + y).

(** [getPieChartData()] *)
Definition getPieChartData (result : option HHIResult) : list Slice :=
  match result with
  | None => []
  | Some r =>
      let topData :=
        (fun holder => {| name := truncateAddress (th_account holder);
                          value := percentage holder;
                          fullAddress := th_account holder |})
          <$> take 9 (topHolders r) in
      if (9 <? holderCount r)%nat
      then
        let othersPercentage :=
          fsub 100 (fold_left (fun sum item => fadd sum (value item))
                              topData 0%Q) in
        if negb (Qle_bool othersPercentage 0)
        then topData ++ [ {| name := "Others"; value := othersPercentage;
                             fullAddress := "Multiple accounts" |} ]
        else topData
      else topData
  end.

Definition COLORS : list string :=
  [ "#00D4FF"; "#8B5CF6"; "#4F46E5"; "#3B82F6"; "#0EA5E9"; "#06B6D4";
    "#14B8A6"; "#059669"; "#10B981"; "#34D399" ].

(** [COLORS[index % COLORS.length]] *)
Definition cellColor (index : nat) : option string :=
  COLORS !! (index mod length COLORS)%nat.

(** [getHhiColorClass(hhi)] *)
Definition getHhiColorClass (hhi : Z) : string :=
  if hhi <? 1500 then "text-green-400"
  else if hhi <? 2500 then "text-yellow-400"
  else "text-red-400".

End HhiCalculator.

(** * Vocabulary of the properties *)

Section KeyOrder.
Context {A : Type} (key : A -> Q).

(** [a] stays in front of [b]. *)
Definition desc (a b : A) : Prop := (key b <= key a)%Q.

(** The records of one key value, in the order of the list. *)
Definition with_key (p : Q) (l : list A) : list A :=
  List.filter (fun a => Qeq_bool (key a) p) l.

End KeyOrder.

(** The value of a holder's amount string (0 when it does not parse). *)
Definition amountZ (h : HolderRecord) : Z :=
  default 0 (StringToBigInt (amount h)).

Definition sumZ (l : list Z) : Z := foldr Z.add 0 l.

(** The exact sum of the amounts of a holder list. *)
Definition total (holders : list HolderRecord) : Z :=
  sumZ (amountZ <$> holders).

(** An amount that denotes an unsigned integer, as a HolderRecord has it
    (the code itself accepts whatever [BigInt] accepts, a sign included). *)
Definition unsignedAmount (h : HolderRecord) : Prop :=
  exists a, StringToBigInt (amount h) = Some a /\ 0 <= a.

(** The first amount string, in list order, that [BigInt] rejects. *)
Fixpoint firstMalformed (holders : list HolderRecord) : option string :=
  match holders with
  | [] => None
  | h :: rest =>
      match StringToBigInt (amount h) with
      | None => Some (amount h)
      | Some _ => firstMalformed rest
      end
  end.

Definition cannotConvert (s : string) : error :=
  SyntaxError (text_of "Cannot convert " ++ rendered s
               ++ text_of " to a BigInt").

(** The record that the callback of step 3 builds for a holder. *)
Definition shareOf (T : Z) (h : HolderRecord) : TopHolder :=
  {| th_account := account h;
     th_amount := amount h;
     percentage := fdiv (inject_Z (Number ((amountZ h * 1000000) ÷ T))) 10000
  |}.

(** The holder's contribution to the index: the integer quotient of
    [a * a * 10000] by [T * T]. *)
Definition squaredTerm (a T : Z) : Z := (a * a * 10000) / (T * T).

(** What [computeHHI] returns when every amount parses and the total is not
    zero. *)
Definition hhiRecord (holders : list HolderRecord) : HHIResult :=
  let T := total holders in
  let hhi := Number (sumZ ((fun h => squaredTerm (amountZ h) T) <$> holders)) in
  {| hhi := hhi;
     totalSupply := toString T;
     holderCount := length holders;
     topHolders := take 10 (sort byPercentageDesc (shareOf T <$> holders));
     concentrationLevel := getConcentrationLevel hhi |}.

Definition squares (l : list Z) : Z := sumZ ((fun a => a * a) <$> l).

Section IndexTerms.
Variable T : Z.

(** The index before its conversion to a number. *)
Definition terms (l : list Z) : Z := sumZ ((fun a => squaredTerm a T) <$> l).

(** How many amounts of the list are the whole supply. *)
Definition owners_of_all (l : list Z) : nat :=
  length (List.filter (fun a => a =? T) l).

End IndexTerms.

Section Pages.
Variables (up : Upstream) (mint : string) (pageSize : nat).

(** The request for a page. *)
Definition request (page : nat) : Request :=
  {| req_mint := mint; req_page := page; req_limit := pageSize |}.

(** The page returns zero raw accounts. *)
Definition zeroRaw (page : nat) : bool :=
  match rpcRequest up (request page) with
  | Normal None | Normal (Some []) => true
  | _ => false
  end.

(** The page decodes to fewer records than the page size. *)
Definition shortPage (page : nat) : bool :=
  match rpcRequest up (request page) with
  | Normal (Some value) =>
      match pageHolders value with
      | Normal holders => (length holders <? pageSize)%nat
      | Throw _ => false
      end
  | _ => false
  end.

(** The call for the page fails: no response, or an error envelope. *)
Definition transportFails (page : nat) : bool :=
  match up (request page) with
  | AxiosError _ | HttpResponse (RpcError _) => true
  | HttpResponse (RpcResult _) => false
  end.

(** An account of the page cannot be decoded. *)
Definition decodeFails (page : nat) : bool :=
  match up (request page) with
  | HttpResponse (RpcResult (Some value)) =>
      match pageHolders value with
      | Throw _ => true
      | Normal _ => false
      end
  | _ => false
  end.

Definition fails (page : nat) : bool :=
  transportFails page || decodeFails page.

(** The page sends the loop to the next page. *)
Definition continues (page : nat) : bool :=
  match fetchPage up (request page) with
  | Normal (Some holders) => negb (length holders <? pageSize)%nat
  | _ => false
  end.

(** The records that the page adds to [allHolders]. *)
Definition recordsOf (page : nat) : list HolderRecord :=
  match fetchPage up (request page) with
  | Normal (Some holders) => holders
  | _ => []
  end.

(** The records of the first [n] pages. *)
Definition recordsUpTo (n : nat) : list HolderRecord :=
  concat (recordsOf <$> seq 0 n).

End Pages.

(** The record that a raw account contributes, if any. *)
Definition qualifies (acc : RawAccount) : option HolderRecord :=
  match acc with
  | Parsed owner amount =>
      if negb (has EXCLUDED_ADDRESSES owner) && negb (String.eqb amount "0")
      then Some {| account := owner; amount := amount |}
      else None
  | _ => None
  end.

(** The raw accounts that the page hands to the filter. *)
Definition rawOf (up : Upstream) (mint : string) (pageSize page : nat)
  : list RawAccount :=
  match up (request mint pageSize page) with
  | HttpResponse (RpcResult (Some value)) =>
      match pageHolders value with
      | Normal _ => value
      | Throw _ => []
      end
  | _ => []
  end.

Definition is_digit (c : ascii) : bool :=
  match digit_value c with
  | Some d => d <? 10
  | None => false
  end.

Fixpoint all_digits (s : string) : bool :=
  match s with
  | EmptyString => true
  | String c s' => is_digit c && all_digits s'
  end.

(** The decimal numeral of an unsigned integer: digits only, and no leading
    zero but for "0" itself. *)
Definition canonicalAmount (s : string) : bool :=
  match s with
  | EmptyString => false
  | String c r =>
      all_digits s && (negb (c =? "0")%char || String.eqb r EmptyString)
  end.

(** The four holders of scenario B. *)
Definition scenarioB : list HolderRecord :=
  [ {| account := "X"; amount := "25" |};
    {| account := "Y"; amount := "25" |};
    {| account := "Z"; amount := "25" |};
    {| account := "W"; amount := "25" |} ].

(** The holder of scenario A. *)
Definition scenarioA : list HolderRecord :=
  [ {| account := "X"; amount := "100" |} ].

(** Rounding to four decimals. *)
Definition round4 (x : Q) : Q := Qmake (Qfloor (x * 10000 + (1 # 2))) 10000.

(** A full page of 1000 accounts that all pass the filter. *)
Definition fullPage : list RawAccount :=
  (fun i : nat => Parsed ("holder" +:+ pretty i) "1") <$> seq 0 1000.

(** Scenario C: a full first page, then pages without accounts. *)
Definition scenarioC : Upstream :=
  fun req =>
    match req_page req with
    | O => HttpResponse (RpcResult (Some fullPage))
    | S _ => HttpResponse (RpcResult (Some []))
    end.

(** Scenario D: a full first page, then the call fails. *)
Definition scenarioD : Upstream :=
  fun req =>
    match req_page req with
    | O => HttpResponse (RpcResult (Some fullPage))
    | S _ => AxiosError "timeout of 30000ms exceeded"
    end.

(** The amounts that the service sends are canonical decimal numerals, as
    the decimal string of an unsigned integer is.  (The filter compares the
    amount string with "0": it would keep another numeral of zero.) *)
Definition canonicalUpstream (up : Upstream) : Prop :=
  forall req value owner amt,
    up req = HttpResponse (RpcResult (Some value)) ->
    Parsed owner amt ∈ value ->
    canonicalAmount amt = true.

(** A page with an excluded owner, a zero balance and an owner of two token
    accounts. *)
Definition mixedPage : list RawAccount :=
  [ Parsed "A" "5";
    Parsed "11111111111111111111111111111111" "7";
    Parsed "B" "0";
    Parsed "A" "9" ].

Definition mixedUpstream : Upstream :=
  fun _ => HttpResponse (RpcResult (Some mixedPage)).

(** A page with a numeral of zero other than "0". *)
Definition zeroNumeralPage : list RawAccount :=
  [ Parsed "A" "5"; Parsed "B" "00" ].

Definition zeroNumeralUpstream : Upstream :=
  fun _ => HttpResponse (RpcResult (Some zeroNumeralPage)).

(** Four holders, two of them with the same share. *)
Definition tiedHolders : list HolderRecord :=
  [ {| account := "A"; amount := "5" |};
    {| account := "C"; amount := "9" |};
    {| account := "D"; amount := "2" |};
    {| account := "E"; amount := "9" |} ].

(** The share of an amount, in millionths of the supply, as step 3 takes
    it. *)
Definition scaledShare (a T : Z) : Z := a * 1000000 / T.

(** A query value that passes the checks of the controller. *)
Definition validMint (mint : HhiController.QueryValue) : bool :=
  match mint with
  | HhiController.Text s => HhiController.isValidSolanaAddress s
  | _ => false
  end.

(** The message of the error that [calculateHHI] throws for an amount that
    [BigInt] rejects. *)
Definition conversionFailure (bad : string) : text :=
  text_of "HHI calculation failed: "
  ++ text_of "Cannot convert " ++ rendered bad ++ text_of " to a BigInt".

(** The mint of the examples. *)
Definition exampleMint : string :=
  "EPjFWdd5AufqSSqeM2qN1xzybapC8G4wEGGkZwyTDt1v".

(** A remote service that does not answer. *)
Definition unreachable : Upstream :=
  fun _ => AxiosError "connect ECONNREFUSED".

(** A page with an amount in scientific notation. *)
Definition malformedUpstream : Upstream :=
  fun _ => HttpResponse (RpcResult (Some [ Parsed "A" "5"; Parsed "B" "1e3" ])).

(** [api.getHHI(mint)] when the request reaches the controller over [svc]
    and its reply comes back. *)
Definition served (svc : IBlockchainService) (mint : string)
  : option HhiCalculator.AxiosResult :=
  HhiCalculator.axiosGet <$> HhiController.getHHI svc (HhiController.Text mint).

(** The entry of the pie chart for a holder. *)
Definition sliceOf (holder : TopHolder) : HhiCalculator.Slice :=
  {| HhiCalculator.name := HhiCalculator.truncateAddress (th_account holder);
     HhiCalculator.value := percentage holder;
     HhiCalculator.fullAddress := th_account holder |}.

(** * Properties *)

(** ** Rounding to binary64 *)

Lemma round_half_even_ge a b : a / b <= round_half_even a b.
Proof.
  unfold round_half_even.
  destruct (2 * (a mod b) <? b); [lia|].
  destruct (b <? 2 * (a mod b)); [lia|].
  destruct (Z.even (a / b)); lia.
Qed.

Lemma round_half_even_pos a b : 0 < b -> b <= a -> 0 < round_half_even a b.
Proof.
  intros Hb Hab. pose proof (round_half_even_ge a b).
  assert (1 <= a / b); [|lia]. apply Z.div_le_lower_bound; lia.
Qed.

(** The quotient is at least [2 ^ exponent]. *)
Lemma exponent_le n d :
  0 < n -> 0 < d ->
  (0 <= exponent n d -> d * 2 ^ exponent n d <= n)
  /\ (exponent n d < 0 -> d <= n * 2 ^ (- exponent n d)).
Proof.
  intros Hn Hd. unfold exponent.
  pose proof (Z.log2_spec n Hn) as [Hn1 _].
  pose proof (Z.log2_spec d Hd) as [_ Hd2].
  pose proof (Z.log2_nonneg n). pose proof (Z.log2_nonneg d).
  set (a := Z.log2 n) in *. set (b := Z.log2 d) in *.
  assert ((0 <= a - b - 1 -> d * 2 ^ (a - b - 1) <= n)
          /\ (a - b - 1 < 0 -> d <= n * 2 ^ (- (a - b - 1)))) as Hless.
  { split; intros Hk.
    - assert (2 ^ a = 2 ^ Z.succ b * 2 ^ (a - b - 1)) as E.
      { rewrite <- Z.pow_add_r by lia. f_equal. lia. }
      assert (0 < 2 ^ (a - b - 1)) by (apply Z.pow_pos_nonneg; lia).
      nia.
    - assert (2 ^ Z.succ b = 2 ^ a * 2 ^ (- (a - b - 1))) as E.
      { rewrite <- Z.pow_add_r by lia. f_equal. lia. }
      assert (0 < 2 ^ (- (a - b - 1))) by (apply Z.pow_pos_nonneg; lia).
      nia. }
  destruct (Z.leb_spec 0 (a - b)) as [Hk|Hk].
  - destruct (Z.leb_spec (d * 2 ^ (a - b)) n) as [Ht|Ht]; [|done].
    split; [done|lia].
  - destruct (Z.leb_spec d (n * 2 ^ (- (a - b)))) as [Ht|Ht]; [|done].
    split; [lia|done].
Qed.

Lemma nearest64_pos n d : 0 < n -> 0 < d -> (0 < nearest64 n d)%Q.
Proof.
  intros Hn Hd. unfold nearest64.
  destruct (exponent_le n d Hn Hd) as [Hpos Hneg].
  set (e := exponent n d) in *.
  destruct (Z.leb_spec 0 (e - 52)) as [Hu|Hu].
  - assert (0 < 2 ^ (e - 52)) by (apply Z.pow_pos_nonneg; lia).
    assert (2 ^ (e - 52) <= 2 ^ e) by (apply Z.pow_le_mono_r; lia).
    assert (0 < round_half_even n (d * 2 ^ (e - 52))).
    { apply round_half_even_pos; [lia|]. specialize (Hpos ltac:(lia)). nia. }
    change 0%Q with (inject_Z 0). rewrite <- Zlt_Qlt. lia.
  - assert (0 < 2 ^ (- (e - 52))) by (apply Z.pow_pos_nonneg; lia).
    assert (0 < round_half_even (n * 2 ^ (- (e - 52))) d).
    { apply round_half_even_pos; [lia|].
      destruct (Z.le_gt_cases 0 e) as [He|He].
      - specialize (Hpos He).
        assert (0 < 2 ^ e) by (apply Z.pow_pos_nonneg; lia). nia.
      - specialize (Hneg He).
        assert (2 ^ (- e) <= 2 ^ (- (e - 52))) by (apply Z.pow_le_mono_r; lia).
        nia. }
    rewrite Qred_correct. unfold Qlt. cbn. lia.
Qed.

(** Rounding keeps the sign. *)
Lemma binary64_le_0 x : Qle_bool (binary64 x) 0 = true <-> (x <= 0)%Q.
Proof.
  rewrite Qle_bool_iff. unfold binary64. destruct x as [[|n|n] d]; cbn [Qnum Qden].
  - split; intros _; [unfold Qle; cbn; lia|lra].
  - pose proof (nearest64_pos (Z.pos n) (Z.pos d) eq_refl eq_refl).
    split; [lra|]. unfold Qle. cbn. lia.
  - pose proof (nearest64_pos (Z.pos n) (Z.pos d) eq_refl eq_refl).
    split; [intros _; unfold Qle; cbn; lia|lra].
Qed.

(** ** [Array.prototype.sort] with a comparator that has the sign of
    [b.key - a.key] *)

Section SortByKeyDesc.
Context {A : Type} (key : A -> Q) (compare : A -> A -> Q).

(** [compare a b] is positive exactly when [b] has the larger key. *)
Hypothesis compare_le_0 :
  forall a b, Qle_bool (compare a b) 0 = true <-> desc key a b.

Lemma sort_insert_Permutation x l : sort_insert compare x l ≡ₚ x :: l.
Proof.
  induction l as [|y l IH]; simpl; [done|].
  destruct (Qle_bool (compare x y) 0); [done|].
  rewrite IH. apply perm_swap.
Qed.

Lemma sort_Permutation l : sort compare l ≡ₚ l.
Proof.
  induction l as [|x l IH]; simpl; [done|].
  by rewrite sort_insert_Permutation, IH.
Qed.

Lemma desc_trans a b c : desc key a b -> desc key b c -> desc key a c.
Proof. unfold desc. intros. lra. Qed.

Lemma sort_insert_sorted x l :
  StronglySorted (desc key) l ->
  StronglySorted (desc key) (sort_insert compare x l).
Proof.
  induction 1 as [|y l Hl IH Hy]; simpl.
  - repeat constructor.
  - destruct (Qle_bool (compare x y) 0) eqn:E.
    + apply compare_le_0 in E. constructor; [by constructor|].
      constructor; [done|].
      eapply Forall_impl; [exact Hy|]. intros z Hz. by eapply desc_trans.
    + assert (desc key y x) as Hyx.
      { destruct (Qlt_le_dec (key y) (key x)) as [Hlt|Hle].
        - assert (desc key x y) as Hxy by (unfold desc; lra).
          apply compare_le_0 in Hxy. congruence.
        - exact Hle. }
      constructor; [done|].
      rewrite (sort_insert_Permutation x l). by constructor.
Qed.

Lemma sort_sorted l : StronglySorted (desc key) (sort compare l).
Proof.
  induction l as [|x l IH]; simpl; [constructor|].
  by apply sort_insert_sorted.
Qed.

Lemma sort_insert_stable p x l :
  with_key key p (sort_insert compare x l) = with_key key p (x :: l).
Proof.
  induction l as [|y l IH]; [done|].
  cbn [sort_insert]. destruct (Qle_bool (compare x y) 0) eqn:E; [done|].
  unfold with_key in *. cbn [List.filter] in *. rewrite IH.
  destruct (Qeq_bool (key x) p) eqn:Ex; [|done].
  destruct (Qeq_bool (key y) p) eqn:Ey; [|done].
  apply Qeq_bool_iff in Ex, Ey.
  assert (desc key x y) as Hd by (unfold desc; lra).
  apply compare_le_0 in Hd. congruence.
Qed.

Lemma sort_stable p l : with_key key p (sort compare l) = with_key key p l.
Proof.
  induction l as [|x l IH]; [done|].
  cbn [sort]. rewrite sort_insert_stable.
  unfold with_key in *. cbn [List.filter]. by rewrite IH.
Qed.

End SortByKeyDesc.

(** ** Amounts as integers *)

Lemma amountZ_Some h a : StringToBigInt (amount h) = Some a -> amountZ h = a.
Proof. unfold amountZ. by intros ->. Qed.

Lemma total_cons h rest : total (h :: rest) = amountZ h + total rest.
Proof. done. Qed.

Lemma firstMalformed_None holders :
  firstMalformed holders = None <->
  Forall (fun h => is_Some (StringToBigInt (amount h))) holders.
Proof.
  induction holders as [|h rest IH]; simpl.
  - split; [constructor|done].
  - destruct (StringToBigInt (amount h)) as [a|] eqn:E.
    + rewrite IH. split.
      * intros ?. constructor; [by rewrite E|done].
      * by inversion 1.
    + split; [done|]. inversion 1 as [|?? [a Ha]]. congruence.
Qed.

Lemma firstMalformed_Some holders :
  (exists h, h ∈ holders /\ StringToBigInt (amount h) = None) ->
  exists s, firstMalformed holders = Some s /\ StringToBigInt s = None.
Proof.
  intros (h & Hin & Hh).
  induction holders as [|h' rest IH]; [by apply elem_of_nil in Hin|].
  simpl. destruct (StringToBigInt (amount h')) as [a|] eqn:E.
  - apply elem_of_cons in Hin as [->|Hin]; [congruence|by apply IH].
  - eauto.
Qed.

Lemma squaredTerm_quot a T : (a * a * 10000) ÷ (T * T) = squaredTerm a T.
Proof.
  unfold squaredTerm.
  destruct (Z.eq_dec T 0) as [->|HT].
  - by rewrite Z.mul_0_r, Z.div_0_r, Z.quot_0_r_ext.
  - apply Z.quot_div_nonneg; nia.
Qed.

(** Step 2 adds the amounts up, or throws at the first malformed one. *)
Lemma reduceM_sum holders init :
  reduceM (fun sum holder => a ← BigInt (amount holder); Normal (sum + a))
          init holders
  = match firstMalformed holders with
    | Some s => Throw (cannotConvert s)
    | None => Normal (init + total holders)
    end.
Proof.
  revert init. induction holders as [|h rest IH]; intros init;
    cbn [reduceM firstMalformed].
  - unfold total. cbn. f_equal. lia.
  - unfold BigInt.
    destruct (StringToBigInt (amount h)) as [a|] eqn:E; [|done].
    cbn [mbind completion_bind JS.bind].
    rewrite IH. destruct (firstMalformed rest); [done|].
    rewrite total_cons, (amountZ_Some h a E). f_equal. lia.
Qed.

Lemma sumAmounts_spec holders :
  sumAmounts holders
  = match firstMalformed holders with
    | Some s => Throw (cannotConvert s)
    | None => Normal (total holders)
    end.
Proof. unfold sumAmounts. by rewrite reduceM_sum. Qed.

(** The callback of step 3 on an amount that parses. *)
Lemma withPercentage_Some T hhiSum h a :
  StringToBigInt (amount h) = Some a ->
  withPercentage T hhiSum h
  = Normal (hhiSum + squaredTerm (amountZ h) T, shareOf T h).
Proof.
  intros E. unfold withPercentage, BigInt, shareOf.
  rewrite (amountZ_Some h a E), E. cbn. by rewrite squaredTerm_quot.
Qed.

(** Step 3 on amounts that all parse. *)
Lemma mapAccumM_withPercentage T holders hhiSum :
  firstMalformed holders = None ->
  mapAccumM (withPercentage T) hhiSum holders
  = Normal (hhiSum + sumZ ((fun h => squaredTerm (amountZ h) T) <$> holders),
            shareOf T <$> holders).
Proof.
  revert hhiSum. induction holders as [|h rest IH]; intros hhiSum;
    cbn [mapAccumM firstMalformed].
  - intros _. cbn. do 2 f_equal. lia.
  - destruct (StringToBigInt (amount h)) as [a|] eqn:E; [|done].
    intros Hrest. rewrite (withPercentage_Some T hhiSum h a E).
    cbn [mbind completion_bind JS.bind]. rewrite IH by done.
    unfold mbind, completion_bind, JS.bind. rewrite !fmap_cons.
    unfold sumZ. cbn [foldr]. do 2 f_equal. lia.
Qed.

Lemma computeHHI_spec holders :
  computeHHI holders
  = match holders with
    | [] => Normal emptyResult
    | _ =>
        match firstMalformed holders with
        | Some s => Throw (cannotConvert s)
        | None =>
            if total holders =? 0 then Normal emptyResult
            else Normal (hhiRecord holders)
        end
    end.
Proof.
  unfold computeHHI. destruct holders as [|h rest]; [done|].
  cbn [length Nat.eqb]. rewrite sumAmounts_spec.
  destruct (firstMalformed (h :: rest)) as [s|] eqn:E; [done|].
  cbn [mbind completion_bind JS.bind].
  destruct (total (h :: rest) =? 0); [done|].
  by rewrite mapAccumM_withPercentage.
Qed.

Lemma calculateHHI_of_spec holders :
  calculateHHI_of holders
  = match holders with
    | [] => Normal emptyResult
    | _ =>
        match firstMalformed holders with
        | Some s => Throw (Error (conversionFailure s))
        | None =>
            if total holders =? 0 then Normal emptyResult
            else Normal (hhiRecord holders)
        end
    end.
Proof.
  unfold calculateHHI_of, calculateHHI_after.
  cbn [mbind completion_bind JS.bind]. rewrite computeHHI_spec.
  destruct holders as [|h rest]; [done|].
  destruct (firstMalformed (h :: rest)); [done|].
  by destruct (total (h :: rest) =? 0).
Qed.

(** ** Arithmetic of the index *)

Lemma sumZ_cons a l : sumZ (a :: l) = a + sumZ l.
Proof. done. Qed.

Lemma squares_cons a l : squares (a :: l) = a * a + squares l.
Proof. done. Qed.

Lemma sumZ_nonneg l : Forall (Z.le 0) l -> 0 <= sumZ l.
Proof. induction 1; rewrite ?sumZ_cons; [done|lia]. Qed.

Lemma sumZ_zero l : Forall (Z.le 0) l -> sumZ l = 0 -> Forall (eq 0) l.
Proof.
  induction 1 as [|a l Ha Hl IH]; [constructor|]. rewrite sumZ_cons.
  intros Hs. pose proof (sumZ_nonneg l Hl).
  constructor; [lia|apply IH; lia].
Qed.

Lemma elem_le_sumZ l x : Forall (Z.le 0) l -> x ∈ l -> x <= sumZ l.
Proof.
  induction 1 as [|a l Ha Hl IH]; [by intros ?%elem_of_nil|].
  pose proof (sumZ_nonneg l Hl). rewrite sumZ_cons.
  intros [->|Hin]%elem_of_cons; [lia|]. specialize (IH Hin). lia.
Qed.

Lemma squares_le l : Forall (Z.le 0) l -> squares l <= sumZ l * sumZ l.
Proof.
  induction 1 as [|a l Ha Hl IH]; [done|].
  rewrite squares_cons, sumZ_cons. pose proof (sumZ_nonneg l Hl). nia.
Qed.

Section Index.
Variable T : Z.
Hypothesis T_pos : 0 < T.

Lemma terms_cons a l : terms T (a :: l) = squaredTerm a T + terms T l.
Proof. done. Qed.

Lemma owners_cons a l :
  owners_of_all T (a :: l)
  = ((if (a =? T)%Z then 1 else 0) + owners_of_all T l)%nat.
Proof. unfold owners_of_all. cbn. by destruct (a =? T). Qed.

Lemma squaredTerm_bounds a :
  0 <= squaredTerm a T /\ squaredTerm a T * (T * T) <= a * a * 10000.
Proof.
  unfold squaredTerm. assert (0 < T * T) by nia. split.
  - apply Z.div_pos; nia.
  - rewrite Z.mul_comm. apply Z.mul_div_le. done.
Qed.

Lemma squaredTerm_0 : squaredTerm 0 T = 0.
Proof. unfold squaredTerm. by rewrite Z.div_0_l by nia. Qed.

Lemma squaredTerm_all : squaredTerm T T = 10000.
Proof.
  unfold squaredTerm. rewrite (Z.mul_comm (T * T)). apply Z.div_mul. nia.
Qed.

Lemma terms_bounds l :
  0 <= terms T l /\ terms T l * (T * T) <= squares l * 10000.
Proof.
  induction l as [|a l IH]; [done|].
  rewrite terms_cons, squares_cons.
  pose proof (squaredTerm_bounds a). nia.
Qed.

(** The index is at most 10000 when the amounts are unsigned and add up to
    the total. *)
Lemma terms_le l : Forall (Z.le 0) l -> sumZ l = T -> terms T l <= 10000.
Proof.
  intros Hl Hs. pose proof (terms_bounds l) as [_ Hb].
  pose proof (squares_le l Hl) as Hsq. rewrite Hs in Hsq. nia.
Qed.

Lemma terms_zero l : Forall (eq 0) l -> terms T l = 0.
Proof.
  induction 1 as [|a l <- Hl IH]; [done|].
  rewrite terms_cons, squaredTerm_0. lia.
Qed.

Lemma owners_zero l : Forall (eq 0) l -> owners_of_all T l = 0%nat.
Proof.
  induction 1 as [|a l <- Hl IH]; [done|]. rewrite owners_cons, IH.
  destruct (Z.eqb_spec 0 T); [lia|done].
Qed.

Lemma owners_elem l : owners_of_all T l ≠ 0%nat -> T ∈ l.
Proof.
  induction l as [|a l IH]; [done|]. rewrite owners_cons.
  destruct (Z.eqb_spec a T) as [->|]; [intros _; left|right; auto].
Qed.

(** One amount is the whole supply: the index is 10000. *)
Lemma owner_terms l :
  Forall (Z.le 0) l -> sumZ l = T -> owners_of_all T l = 1%nat ->
  terms T l = 10000.
Proof.
  induction 1 as [|a l Ha Hl IH]; [done|].
  rewrite sumZ_cons, owners_cons, terms_cons.
  pose proof (sumZ_nonneg l Hl) as Hs.
  destruct (Z.eqb_spec a T) as [->|Hne]; intros Hsum Hown.
  - rewrite squaredTerm_all, terms_zero; [done|].
    apply sumZ_zero; [done|lia].
  - assert (T ∈ l) as Hin by (apply owners_elem; lia).
    pose proof (elem_le_sumZ l T Hl Hin).
    assert (a = 0) as -> by lia.
    rewrite squaredTerm_0, IH; [done|lia|done].
Qed.

End Index.

(** Squares that add up to the square of the sum: one amount is the sum. *)
Lemma squares_eq_owner l T :
  Forall (Z.le 0) l -> sumZ l = T -> 0 < T -> squares l = T * T ->
  owners_of_all T l = 1%nat.
Proof.
  intros Hl. revert T. induction Hl as [|a l Ha Hl IH]; intros T.
  - cbn. lia.
  - rewrite sumZ_cons, squares_cons, owners_cons.
    pose proof (sumZ_nonneg l Hl) as Hs. pose proof (squares_le l Hl) as Hq.
    intros <- Hpos Heq.
    assert (a * sumZ l = 0) as Hz by nia.
    apply Z.mul_eq_0 in Hz as [->|Hz].
    + destruct (Z.eqb_spec 0 (0 + sumZ l)); [lia|].
      rewrite IH; [done|lia..].
    + rewrite Hz, Z.add_0_r, Z.eqb_refl.
      rewrite owners_zero; [done|lia|by apply sumZ_zero].
Qed.

(** The index is 10000 exactly when one amount is the whole supply. *)
Lemma terms_max_iff l T :
  Forall (Z.le 0) l -> sumZ l = T -> 0 < T ->
  terms T l = 10000 <-> owners_of_all T l = 1%nat.
Proof.
  intros Hl Hs HT. split; [|by apply owner_terms].
  intros Ht. apply squares_eq_owner; [done..|].
  pose proof (terms_bounds T HT l) as [_ Hb].
  pose proof (squares_le l Hl) as Hsq. rewrite Hs in Hsq. nia.
Qed.

(** Amounts that are all positive: the owner of the whole supply is alone. *)
Lemma positive_owner_alone l T :
  Forall (Z.lt 0) l -> sumZ l = T -> T ∈ l -> l = [T].
Proof.
  intros Hl. revert T. induction Hl as [|a l Ha Hl IH]; intros T.
  - by intros _ ?%elem_of_nil.
  - rewrite sumZ_cons. intros <- Hin.
    assert (Forall (Z.le 0) l) as Hl'.
    { eapply Forall_impl; [exact Hl|]. intros; lia. }
    destruct l as [|b l]; [by rewrite Z.add_0_r|exfalso].
    pose proof (sumZ_nonneg _ Hl') as Hs.
    apply elem_of_cons in Hin as [Heq|Hin].
    + rewrite sumZ_cons in Heq, Hs. inversion Hl as [|?? Hb Hl2]; subst.
      assert (Forall (Z.le 0) l) as Hl2'.
      { eapply Forall_impl; [exact Hl2|]. intros; lia. }
      pose proof (sumZ_nonneg _ Hl2'). lia.
    + pose proof (elem_le_sumZ _ _ Hl' Hin). lia.
Qed.

Lemma Number_exact z : 0 <= z < 2 ^ 53 -> Number z = z.
Proof.
  intros [H0 H1]. unfold Number.
  destruct (Z.leb_spec (Z.log2 (Z.abs z) - 52) 0) as [|Hlog]; [done|].
  rewrite Z.abs_eq in Hlog by done.
  assert (0 < z) as Hz by (destruct (Z.eq_dec z 0) as [->|]; [done|lia]).
  apply (Z.log2_lt_pow2 z 53) in H1; lia.
Qed.

(** ** The fetch loop *)

Section Pagination.
Variables (up : Upstream) (mint : string) (pageSize : nat).

Lemma fails_iff page :
  fails up mint pageSize page = true
  <-> exists e, fetchPage up (request mint pageSize page) = Throw e.
Proof.
  unfold fails, transportFails, decodeFails, fetchPage, rpcRequest.
  destruct (up (request mint pageSize page)) as [m|[m|[[|acc value]|]]];
    unfold mbind, completion_bind, JS.bind;
    try destruct (pageHolders (acc :: value)); cbn;
    (split; [first [done|eauto]|first [done|by intros [? ?]]]).
Qed.

Lemma fails_recordsOf page :
  fails up mint pageSize page = true -> recordsOf up mint pageSize page = [].
Proof. intros [e He]%fails_iff. unfold recordsOf. by rewrite He. Qed.

Lemma fails_continues page :
  fails up mint pageSize page = true ->
  continues up mint pageSize page = false.
Proof. intros [e He]%fails_iff. unfold continues. by rewrite He. Qed.

(** A page continues, fails, returns nothing or is short. *)
Lemma continues_negb page :
  continues up mint pageSize page
  = negb (zeroRaw up mint pageSize page || shortPage up mint pageSize page
          || fails up mint pageSize page).
Proof.
  unfold continues, zeroRaw, shortPage, fails, transportFails, decodeFails,
    fetchPage, rpcRequest.
  destruct (up (request mint pageSize page)) as [m|[m|[[|acc value]|]]];
    unfold mbind, completion_bind, JS.bind;
    try destruct (pageHolders (acc :: value)) as [holders|e]; cbn;
    rewrite ?orb_false_r; done.
Qed.

(** The [catch] of the iteration leaves nothing to throw. *)
Lemma iteration_spec allHolders page :
  iteration up mint pageSize allHolders page
  = Normal (if continues up mint pageSize page
            then More (allHolders ++ recordsOf up mint pageSize page) (S page)
            else Done (allHolders ++ recordsOf up mint pageSize page)).
Proof.
  unfold iteration, continues, recordsOf.
  fold (request mint pageSize page).
  destruct (fetchPage up (request mint pageSize page)) as [[holders|]|e];
    cbn [mbind completion_bind JS.bind try_catch negb];
    rewrite ?app_nil_r; [|done..].
  by destruct (length holders <? pageSize)%nat.
Qed.

Lemma fetchLoop_step fuel allHolders page log :
  fetchLoop (S fuel) up mint pageSize allHolders page log
  = if continues up mint pageSize page
    then fetchLoop fuel up mint pageSize
           (allHolders ++ recordsOf up mint pageSize page)
           (S page) (log ++ [request mint pageSize page])
    else Some (Normal (allHolders ++ recordsOf up mint pageSize page),
               log ++ [request mint pageSize page]).
Proof.
  cbn [fetchLoop]. rewrite iteration_spec.
  by destruct (continues up mint pageSize page).
Qed.

(** The loop stops at the first page that does not continue. *)
Lemma fetchLoop_run k :
  forall fuel allHolders page log,
    (forall i, (i < k)%nat -> continues up mint pageSize (page + i) = true) ->
    continues up mint pageSize (page + k) = false ->
    (k < fuel)%nat ->
    fetchLoop fuel up mint pageSize allHolders page log
    = Some (Normal (allHolders
                    ++ concat (recordsOf up mint pageSize
                               <$> seq page (S k))),
            log ++ (request mint pageSize <$> seq page (S k))).
Proof.
  induction k as [|k IH]; intros fuel allHolders page log Hgo Hstop Hfuel;
    (destruct fuel as [|fuel]; [lia|]); rewrite fetchLoop_step.
  - rewrite Nat.add_0_r in Hstop. rewrite Hstop. cbn. by rewrite app_nil_r.
  - rewrite <- (Nat.add_0_r page) at 1. rewrite (Hgo 0%nat) by lia.
    rewrite (IH fuel _ (S page)); [|intros i Hi|..|lia].
    + cbn [seq fmap list_fmap concat]. by rewrite <- !app_assoc.
    + replace (S page + i)%nat with (page + S i)%nat by lia.
      apply Hgo. lia.
    + by replace (S page + k)%nat with (page + S k)%nat by lia.
Qed.

(** A loop that returned stopped at such a page, and returned normally. *)
Lemma fetchLoop_returned fuel :
  forall allHolders page log fetched log',
    fetchLoop fuel up mint pageSize allHolders page log
    = Some (fetched, log') ->
    exists k,
      (k < fuel)%nat
      /\ (forall i, (i < k)%nat -> continues up mint pageSize (page + i) = true)
      /\ continues up mint pageSize (page + k) = false
      /\ fetched
         = Normal (allHolders
                   ++ concat (recordsOf up mint pageSize <$> seq page (S k)))
      /\ log' = log ++ (request mint pageSize <$> seq page (S k)).
Proof.
  induction fuel as [|fuel IH]; intros allHolders page log fetched log';
    [done|].
  rewrite fetchLoop_step. destruct (continues up mint pageSize page) eqn:Hc.
  - intros (k & Hk & Hgo & Hstop & -> & ->)%IH. exists (S k).
    split; [lia|]. split; [|split; [|split]].
    + intros [|i] Hi; [by rewrite Nat.add_0_r|].
      replace (page + S i)%nat with (S page + i)%nat by lia.
      apply Hgo. lia.
    + by replace (page + S k)%nat with (S page + k)%nat by lia.
    + cbn [seq fmap list_fmap concat]. by rewrite <- !app_assoc.
    + cbn [seq fmap list_fmap]. by rewrite <- !app_assoc.
  - intros [= <- <-]. exists 0%nat. rewrite Nat.add_0_r.
    split; [lia|]. split; [intros; lia|]. split; [done|].
    cbn. by rewrite app_nil_r.
Qed.

(** More fuel does not change a result. *)
Lemma fetchLoop_fuel fuel fuel' allHolders page log res :
  fetchLoop fuel up mint pageSize allHolders page log = Some res ->
  (fuel <= fuel')%nat ->
  fetchLoop fuel' up mint pageSize allHolders page log = Some res.
Proof.
  destruct res as [fetched log'].
  intros (k & Hk & Hgo & Hstop & -> & ->)%fetchLoop_returned Hle.
  apply fetchLoop_run; [done..|lia].
Qed.

End Pagination.

(** ** Decoding a page *)

Lemma qualifies_Some acc h :
  qualifies acc = Some h ->
  acc = Parsed (account h) (amount h)
  /\ (account h ∉ EXCLUDED_ADDRESSES)
  /\ amount h ≠ "0".
Proof.
  destruct acc as [owner amt| |]; cbn; [|done..].
  destruct (negb (has EXCLUDED_ADDRESSES owner)) eqn:Ho; [|done].
  destruct (String.eqb_spec amt "0") as [|Ha]; [done|].
  intros [= <-]. cbn. split; [done|]. split; [|done].
  unfold has in Ho. apply negb_true_iff, bool_decide_eq_false in Ho. done.
Qed.

Lemma filterM_keep value kept :
  filterM keep value = Normal kept ->
  mapM' toHolder kept = Normal (omap qualifies value).
Proof.
  revert kept. induction value as [|acc value IH]; intros kept.
  - by intros [= <-].
  - cbn [filterM omap list_omap].
    destruct (filterM keep value) as [r|e].
    + specialize (IH r eq_refl). destruct acc as [owner amt|owner|]; cbn.
      * destruct (negb (has EXCLUDED_ADDRESSES owner)
                  && negb (amt =? "0")%string);
          intros [= <-]; [cbn; by rewrite IH|done].
      * destruct (negb (has EXCLUDED_ADDRESSES owner)); [done|].
        by intros [= <-].
      * done.
    + destruct (keep acc); done.
Qed.

(** A page that decodes yields its qualifying accounts, each one once, in
    the order of the response. *)
Lemma pageHolders_Normal value holders :
  pageHolders value = Normal holders -> holders = omap qualifies value.
Proof.
  unfold pageHolders. destruct (filterM keep value) as [kept|e] eqn:E; [|done].
  cbn. rewrite (filterM_keep _ _ E). by intros [= <-].
Qed.

Lemma recordsOf_qualifies up mint pageSize page :
  recordsOf up mint pageSize page
  = omap qualifies (rawOf up mint pageSize page).
Proof.
  unfold recordsOf, rawOf, fetchPage, rpcRequest.
  destruct (up (request mint pageSize page)) as [m|[m|[[|acc value]|]]];
    try done.
  unfold mbind, completion_bind, JS.bind.
  destruct (pageHolders (acc :: value)) as [holders|e] eqn:E; [|done].
  by apply pageHolders_Normal.
Qed.

Lemma recordsUpTo_qualifies up mint pageSize n :
  recordsUpTo up mint pageSize n
  = omap qualifies (concat (rawOf up mint pageSize <$> seq 0 n)).
Proof.
  unfold recordsUpTo. generalize (seq 0 n). intros pages.
  induction pages as [|page pages IH]; [done|].
  cbn [fmap list_fmap concat]. rewrite omap_app, recordsOf_qualifies.
  by f_equal.
Qed.

(** ** Canonical amounts *)

Lemma is_digit_facts c :
  is_digit c = true ->
  is_white_space c = false
  /\ (c =? "+")%char = false
  /\ (c =? "-")%char = false
  /\ exists d, digit_value c = Some d /\ 0 <= d < 10
               /\ (d = 0 -> c = "0"%char).
Proof.
  destruct c as [[] [] [] [] [] [] [] []]; intros H;
    try discriminate H; repeat split; try reflexivity;
    eexists; (split; [reflexivity|]); (split; [done|]); intros [=]; done.
Qed.

Lemma trim_end_digits s : all_digits s = true -> trim_end s = s.
Proof.
  induction s as [|c s IH]; [done|]. cbn [all_digits trim_end].
  intros [Hc Hs]%andb_true_iff. rewrite (IH Hs).
  destruct (is_digit_facts c Hc) as (-> & _). by destruct s.
Qed.

Lemma trim_digits s : all_digits s = true -> trim s = s.
Proof.
  intros Hs. unfold trim.
  replace (trim_start s) with s; [by apply trim_end_digits|].
  destruct s as [|c s]; [done|]. cbn in *.
  apply andb_true_iff in Hs as [Hc _].
  by destruct (is_digit_facts c Hc) as (-> & _).
Qed.

Lemma digits_value_digits s acc :
  all_digits s = true -> 0 <= acc ->
  exists v, digits_value 10 acc s = Some v /\ acc <= v.
Proof.
  revert acc. induction s as [|c s IH]; intros acc;
    cbn [all_digits digits_value].
  - intros _ ?. exists acc. split; [done|lia].
  - intros [Hc Hs]%andb_true_iff Hacc.
    destruct (is_digit_facts c Hc) as (_ & _ & _ & d & -> & Hd & _).
    destruct (Z.ltb_spec d 10); [|lia].
    destruct (IH (acc * 10 + d) Hs) as (v & -> & Hv); [lia|].
    exists v. split; [done|lia].
Qed.

(** A string of digits is read as a decimal numeral. *)
Lemma StringToBigInt_digits c r :
  all_digits (String c r) = true ->
  StringToBigInt (String c r) = digits_value 10 0 (String c r).
Proof.
  intros Hs. unfold StringToBigInt. rewrite (trim_digits _ Hs).
  pose proof Hs as [Hc Hr]%andb_true_iff.
  destruct (is_digit_facts c Hc) as (_ & -> & -> & _).
  assert (non_decimal_literal (String c r) = None) as ->; [|done].
  unfold non_decimal_literal. destruct r as [|p r]; [done|].
  destruct (c =? "0")%char; [|done].
  apply andb_true_iff in Hr as [Hp _].
  assert (radix_of_prefix p = None) as ->; [|done].
  revert Hp. clear.
  destruct p as [[] [] [] [] [] [] [] []]; intros H;
    try discriminate H; reflexivity.
Qed.

(** A canonical amount parses to an unsigned integer, and to zero only when
    it is "0". *)
Lemma canonicalAmount_value s :
  canonicalAmount s = true ->
  exists a, StringToBigInt s = Some a /\ 0 <= a /\ (s ≠ "0" -> 0 < a).
Proof.
  destruct s as [|c r]; [done|]. unfold canonicalAmount.
  intros [Hs Hlead]%andb_true_iff. rewrite (StringToBigInt_digits _ _ Hs).
  pose proof Hs as [Hc Hr]%andb_true_iff.
  destruct (is_digit_facts c Hc) as (_ & _ & _ & d & Hd & Hd09 & Hd0).
  cbn [digits_value]. rewrite Hd.
  destruct (Z.ltb_spec d 10); [|lia].
  destruct (digits_value_digits r (0 * 10 + d) Hr) as (v & -> & Hv); [lia|].
  exists v. split; [done|]. split; [lia|]. intros Hne.
  destruct (Z.eq_dec d 0) as [Hz|]; [|lia].
  specialize (Hd0 Hz). subst c. cbn in Hlead.
  apply String.eqb_eq in Hlead. by subst r.
Qed.

(** ** [toString] and [BigInt] *)

Lemma pretty_N_char_digit d :
  (d < 10)%N ->
  digit_value (pretty_N_char d) = Some (Z.of_N d).
Proof.
  intros Hd.
  assert (d = 0 \/ d = 1 \/ d = 2 \/ d = 3 \/ d = 4 \/ d = 5 \/ d = 6 \/ d = 7
          \/ d = 8 \/ d = 9)%N as H by lia.
  repeat (destruct H as [->|H]; [reflexivity|]). by subst.
Qed.

Lemma digits_value_shift s : forall acc acc' v,
  digits_value 10 acc s = Some v ->
  digits_value 10 acc' s
  = Some (v + (acc' - acc) * 10 ^ Z.of_nat (String.length s)).
Proof.
  induction s as [|c s IH]; intros acc acc' v; cbn [digits_value String.length].
  - intros [= <-]. f_equal. lia.
  - destruct (digit_value c) as [d|]; [|done].
    destruct (d <? 10); [|done]. intros Hv.
    rewrite (IH _ (acc' * 10 + d) _ Hv). f_equal.
    rewrite Nat2Z.inj_succ, Z.pow_succ_r by lia. lia.
Qed.

(** The digits that [toString] prepends read back as the number. *)
Lemma digits_value_pretty_N_go x : forall s v,
  digits_value 10 0 s = Some v ->
  digits_value 10 0 (pretty_N_go x s)
  = Some (Z.of_N x * 10 ^ Z.of_nat (String.length s) + v).
Proof.
  induction (N.lt_wf_0 x) as [x _ IH]; intros s v Hv.
  destruct (N.eq_dec x 0) as [->|Hx].
  - by rewrite pretty_N_go_0, Hv.
  - rewrite pretty_N_go_step by lia.
    assert (x `mod` 10 < 10)%N as Hmod by (apply N.mod_lt; lia).
    rewrite (IH (x `div` 10)%N)
      with (v := Z.of_N (x `mod` 10) * 10 ^ Z.of_nat (String.length s) + v).
    + f_equal. cbn [String.length].
      rewrite Nat2Z.inj_succ, Z.pow_succ_r by lia.
      rewrite (N.div_mod x 10) at 3 by lia.
      rewrite N2Z.inj_add, N2Z.inj_mul. lia.
    + apply N.div_lt; lia.
    + cbn [digits_value]. rewrite (pretty_N_char_digit _ Hmod).
      destruct (Z.ltb_spec (Z.of_N (x `mod` 10)) 10); [|lia].
      rewrite (digits_value_shift s 0 _ v Hv). f_equal. lia.
Qed.

Lemma all_digits_pretty_N_go x : forall s,
  all_digits s = true -> all_digits (pretty_N_go x s) = true.
Proof.
  induction (N.lt_wf_0 x) as [x _ IH]; intros s Hs.
  destruct (N.eq_dec x 0) as [->|Hx]; [by rewrite pretty_N_go_0|].
  rewrite pretty_N_go_step by lia. apply IH; [apply N.div_lt; lia|].
  cbn [all_digits]. rewrite Hs, andb_true_r.
  assert (x `mod` 10 < 10)%N as Hmod by (apply N.mod_lt; lia).
  unfold is_digit. rewrite (pretty_N_char_digit _ Hmod). apply Z.ltb_lt. lia.
Qed.

Lemma StringToBigInt_pretty_pos p :
  pretty (N.pos p) ≠ EmptyString /\
  all_digits (pretty (N.pos p)) = true /\
  StringToBigInt (pretty (N.pos p)) = Some (Z.pos p).
Proof.
  unfold pretty, pretty_N. destruct (decide (N.pos p = 0%N)) as [|_]; [done|].
  assert (digits_value 10 0 (pretty_N_go (N.pos p) EmptyString)
          = Some (Z.pos p)) as Hv.
  { rewrite (digits_value_pretty_N_go _ EmptyString 0 eq_refl).
    f_equal. change (Z.of_nat (String.length EmptyString)) with 0. lia. }
  pose proof (all_digits_pretty_N_go (N.pos p) EmptyString eq_refl) as Hd.
  destruct (pretty_N_go (N.pos p) EmptyString) as [|c r] eqn:E; [done|].
  split; [done|]. split; [done|]. by rewrite StringToBigInt_digits.
Qed.

Lemma trim_end_cons a s :
  trim_end s = s -> s ≠ EmptyString -> trim_end (String a s) = String a s.
Proof. intros H Hne. cbn [trim_end]. rewrite H. by destruct s. Qed.

Lemma StringToBigInt_toString z : StringToBigInt (toString z) = Some z.
Proof.
  unfold toString, pretty, pretty_Z. destruct z as [|p|p]; [done|..].
  - apply StringToBigInt_pretty_pos.
  - destruct (StringToBigInt_pretty_pos p) as (Hne & Hd & Hv).
    change (pretty p) with (pretty (N.pos p)).
    destruct (pretty (N.pos p)) as [|c r] eqn:E; [done|].
    rewrite StringToBigInt_digits in Hv by done.
    unfold StringToBigInt, trim.
    change ("-" +:+ String c r) with (String "-"%char (String c r)).
    change (trim_start (String "-"%char (String c r)))
      with (String "-"%char (String c r)).
    assert (trim_end (String "-"%char (String c r))
            = String "-"%char (String c r)) as ->.
    { apply trim_end_cons; [by apply trim_end_digits|done]. }
    change (("-" =? "+")%char) with false. change (("-" =? "-")%char) with true.
    cbv iota. unfold parse_digits. by rewrite Hv.
Qed.

(** ** The index over a holder list *)

Lemma terms_holders T holders :
  sumZ ((fun h => squaredTerm (amountZ h) T) <$> holders)
  = terms T (amountZ <$> holders).
Proof. unfold terms. by rewrite <- list_fmap_compose. Qed.

Lemma unsigned_amounts holders :
  Forall unsignedAmount holders -> Forall (Z.le 0) (amountZ <$> holders).
Proof.
  intros H. apply Forall_fmap. eapply Forall_impl; [exact H|].
  intros h (a & Ha & Hle). cbn. by rewrite (amountZ_Some h a Ha).
Qed.

Lemma owners_holders T holders :
  owners_of_all T (amountZ <$> holders)
  = length (List.filter (fun h => amountZ h =? T) holders).
Proof.
  unfold owners_of_all. induction holders as [|h rest IH]; [done|].
  cbn. destruct (amountZ h =? T); cbn; by rewrite <- IH.
Qed.

Lemma sumAmounts_Normal holders T :
  sumAmounts holders = Normal T ->
  firstMalformed holders = None /\ T = total holders.
Proof.
  rewrite sumAmounts_spec. destruct (firstMalformed holders); [done|].
  by intros [= <-].
Qed.

(** A holder list with a non-zero total yields [hhiRecord]. *)
Lemma calculateHHI_of_total holders T :
  sumAmounts holders = Normal T -> T ≠ 0 ->
  calculateHHI_of holders = Normal (hhiRecord holders).
Proof.
  intros [Hparse ->]%sumAmounts_Normal HT. rewrite calculateHHI_of_spec.
  destruct holders as [|h rest]; [done|]. rewrite Hparse.
  by destruct (Z.eqb_spec (total (h :: rest)) 0).
Qed.

Lemma unsigned_terms_range holders :
  Forall unsignedAmount holders -> 0 < total holders ->
  0 <= terms (total holders) (amountZ <$> holders) <= 10000.
Proof.
  intros Hu HT. split.
  - by apply terms_bounds.
  - apply terms_le; [done|by apply unsigned_amounts|done].
Qed.

(** C1: for a holder list whose amounts add up to T > 0, the callback of
    step 3 adds the integer quotient [(a * a * 10000) / (T * T)] of each
    holder to [hhiSum], and [calculateHHI] returns a result whose [hhi] is
    the conversion, done once at the end, of the sum of these quotients over
    all holders; for unsigned amounts the conversion is exact and [hhi] is
    that sum. *)
Theorem calculateHHI_index_is_sum holders T :
  sumAmounts holders = Normal T -> 0 < T ->
  (forall h hhiSum,
     h ∈ holders ->
     exists t,
       withPercentage T hhiSum h
       = Normal (hhiSum + squaredTerm (amountZ h) T, t))
  /\ exists r,
       calculateHHI_of holders = Normal r
       /\ hhi r
          = Number (sumZ ((fun h => squaredTerm (amountZ h) T) <$> holders))
       /\ (Forall unsignedAmount holders ->
           hhi r = sumZ ((fun h => squaredTerm (amountZ h) T) <$> holders)).
Proof.
  intros Hsum HT. split.
  { intros h hhiSum Hin. apply sumAmounts_Normal in Hsum as [Hparse _].
    apply firstMalformed_None in Hparse.
    destruct (proj1 (Forall_forall _ _) Hparse h Hin) as [a Ha].
    rewrite (withPercentage_Some _ _ _ a Ha). by eexists. }
  exists (hhiRecord holders).
  split; [apply (calculateHHI_of_total _ T); [done|lia]|].
  apply sumAmounts_Normal in Hsum as [_ ->].
  split; [done|]. intros Hu. cbn. rewrite terms_holders.
  apply Number_exact. pose proof (unsigned_terms_range holders Hu HT). lia.
Qed.

(** Scenario B: four holders of 25 out of 100; every term is 625 and the
    index is 2500. *)
Lemma calculateHHI_index_scenarioB :
  sumAmounts scenarioB = Normal 100
  /\ Forall (fun h => squaredTerm (amountZ h) 100 = 625) scenarioB
  /\ exists r, calculateHHI_of scenarioB = Normal r /\ hhi r = 2500.
Proof.
  split; [reflexivity|]. split; [repeat constructor|].
  destruct (calculateHHI_index_is_sum scenarioB 100 eq_refl eq_refl)
    as (_ & r & Hr & Hhhi & _).
  exists r. split; [exact Hr|]. rewrite Hhhi. reflexivity.
Defined.

(** C2: for a holder list of unsigned amounts that add up to T > 0, [hhi]
    lies in [0, 10000], and it is 10000 exactly when one record of the list
    owns the whole supply; when every amount is positive, that record is the
    whole list. *)
Theorem calculateHHI_index_range holders T :
  Forall unsignedAmount holders ->
  sumAmounts holders = Normal T -> 0 < T ->
  exists r,
    calculateHHI_of holders = Normal r
    /\ 0 <= hhi r <= 10000
    /\ (hhi r = 10000 <->
        length (List.filter (fun h => amountZ h =? T) holders) = 1%nat)
    /\ (Forall (fun h => 0 < amountZ h) holders ->
        hhi r = 10000 <-> exists h, holders = [h]).
Proof.
  intros Hu Hsum HT. exists (hhiRecord holders).
  split; [apply (calculateHHI_of_total _ T); [done|lia]|].
  apply sumAmounts_Normal in Hsum as [_ ->].
  pose proof (unsigned_terms_range holders Hu HT) as Hrange.
  pose proof (unsigned_amounts holders Hu) as Hnonneg.
  assert (hhi (hhiRecord holders)
          = terms (total holders) (amountZ <$> holders)) as ->.
  { cbn. rewrite terms_holders. apply Number_exact. lia. }
  assert (terms (total holders) (amountZ <$> holders) = 10000 <->
          length (List.filter (fun h => amountZ h =? total holders) holders)
          = 1%nat) as Hiff.
  { rewrite <- owners_holders. by apply terms_max_iff. }
  split; [done|]. split; [done|].
  intros Hpos. rewrite Hiff, <- owners_holders. split.
  - intros Hown.
    assert (total holders ∈ amountZ <$> holders) as Hin
      by (apply owners_elem; lia).
    apply positive_owner_alone in Hin; [|by apply Forall_fmap|done].
    destruct holders as [|h [|h' rest]]; [done|by exists h|done].
  - intros [h ->]. unfold total. cbn.
    rewrite Z.add_0_r. by rewrite Z.eqb_refl.
Qed.

(** Scenario A: one holder of the whole supply. *)
Lemma calculateHHI_index_scenarioA :
  exists r,
    calculateHHI_of scenarioA = Normal r
    /\ hhi r = 10000
    /\ concentrationLevel r = "Extreme concentration (risk of manipulation)"
    /\ topHolders r
       = [ {| th_account := "X"; th_amount := "100"; percentage := 100 |} ].
Proof.
  assert (Forall unsignedAmount scenarioA) as Hu.
  { repeat constructor. exists 100. split; [reflexivity|discriminate]. }
  destruct (calculateHHI_index_range scenarioA 100 Hu eq_refl eq_refl)
    as (r & Hr & _ & Hiff & _).
  exists r. split; [exact Hr|]. split; [apply Hiff; reflexivity|].
  assert (calculateHHI_of scenarioA
          = Normal
              {| hhi := 10000; totalSupply := "100"; holderCount := 1;
                 topHolders :=
                   [ {| th_account := "X"; th_amount := "100";
                        percentage := 100 |} ];
                 concentrationLevel :=
                   "Extreme concentration (risk of manipulation)" |})
    as Hrun by (vm_compute; reflexivity).
  rewrite Hrun in Hr. injection Hr as <-. split; reflexivity.
Defined.

(** ** The empty sentinel *)

Lemma hhiRecord_not_empty holders :
  holders ≠ [] -> hhiRecord holders ≠ emptyResult.
Proof.
  intros Hne Heq. apply (f_equal holderCount) in Heq. cbn in Heq.
  by destruct holders.
Qed.

Lemma zero_amounts_total holders :
  Forall (fun h => StringToBigInt (amount h) = Some 0) holders ->
  sumAmounts holders = Normal 0.
Proof.
  intros Hz. rewrite sumAmounts_spec.
  assert (firstMalformed holders = None) as ->.
  { apply firstMalformed_None. eapply Forall_impl; [exact Hz|].
    intros h ->. by eexists. }
  f_equal. induction Hz as [|h rest Hh _ IH]; [done|].
  by rewrite total_cons, (amountZ_Some h 0 Hh), IH.
Qed.

Lemma zero_accounts_qualify value :
  (forall acc, acc ∈ value -> exists owner, acc = Parsed owner "0") ->
  omap qualifies value = [].
Proof.
  induction value as [|acc value IH]; intros Hz; [done|].
  destruct (Hz acc) as [owner ->]; [left|]. cbn.
  rewrite andb_false_r. apply IH. intros acc' Hin. apply Hz. by right.
Qed.

Lemma rawOf_elem up mint pageSize page acc :
  acc ∈ rawOf up mint pageSize page ->
  exists value,
    up (request mint pageSize page) = HttpResponse (RpcResult (Some value))
    /\ acc ∈ value.
Proof.
  unfold rawOf.
  destruct (up (request mint pageSize page)) as [m|[m|[value|]]];
    try by intros ?%elem_of_nil.
  destruct (pageHolders value); [eauto|by intros ?%elem_of_nil].
Qed.

(** C3: the sentinel is [{hhi: 0, totalSupply: "0", holderCount: 0,
    topHolders: [], concentrationLevel: "No active holders"}];
    [calculateHHI] returns it, normally, exactly when the fetched holder
    list is empty or every amount is one that [BigInt] accepts and the
    amounts add up to zero; so it does when every fetched amount is zero,
    and when the service returns accounts of amount "0" only. *)
Theorem calculateHHI_empty_iff :
  emptyResult
  = {| hhi := 0; totalSupply := "0"; holderCount := 0; topHolders := [];
       concentrationLevel := "No active holders" |}
  /\ (forall holders,
        calculateHHI_of holders = Normal emptyResult
        <-> holders = []
            \/ (firstMalformed holders = None /\ total holders = 0))
  /\ (forall holders,
        Forall (fun h => StringToBigInt (amount h) = Some 0) holders ->
        calculateHHI_of holders = Normal emptyResult)
  /\ (forall fuel up mint,
        (forall req value acc,
           up req = HttpResponse (RpcResult (Some value)) ->
           acc ∈ value -> exists owner, acc = Parsed owner "0") ->
        calculateHHI (S fuel) up mint = Some (Normal emptyResult)).
Proof.
  assert (forall holders,
            calculateHHI_of holders = Normal emptyResult
            <-> holders = []
                \/ (firstMalformed holders = None /\ total holders = 0))
    as Hiff.
  { intros holders. rewrite calculateHHI_of_spec.
    destruct holders as [|h rest]; [by split; [left|]|].
    destruct (firstMalformed (h :: rest)) as [s|].
    { split; [done|]. by intros [|[? _]]. }
    destruct (Z.eqb_spec (total (h :: rest)) 0) as [->|Hne].
    { split; [by right|done]. }
    split.
    - intros Heq. assert (hhiRecord (h :: rest) = emptyResult) as Hrec
        by congruence.
      by apply hhiRecord_not_empty in Hrec.
    - intros [|[_ Heq]]; [done|]. congruence. }
  split; [done|]. split; [exact Hiff|]. split.
  - intros holders Hz. apply Hiff. right.
    pose proof (zero_amounts_total holders Hz) as Hsum.
    rewrite sumAmounts_spec in Hsum.
    destruct (firstMalformed holders); [done|]. split; congruence.
  - intros fuel up mint Hz. unfold calculateHHI, getAllTokenHolders.
    rewrite fetchLoop_step.
    assert (recordsOf up mint DEFAULT_PAGE_SIZE 0 = []) as Hrec.
    { rewrite recordsOf_qualifies. apply zero_accounts_qualify.
      intros acc (value & Hup & Hin)%rawOf_elem. by eapply Hz. }
    assert (continues up mint DEFAULT_PAGE_SIZE 0 = false) as ->.
    { unfold continues. unfold recordsOf in Hrec.
      destruct (fetchPage up (request mint DEFAULT_PAGE_SIZE 0))
        as [[holders|]|e]; [|done..]. by rewrite Hrec. }
    by rewrite Hrec.
Qed.

(** Scenario E on a page of three accounts of amount "0". *)
Lemma calculateHHI_empty_scenarioE :
  calculateHHI 1
    (fun _ => HttpResponse (RpcResult
       (Some [Parsed "A" "0"; Parsed "B" "0"; Parsed "C" "0"])))
    "mint"
  = Some (Normal emptyResult).
Proof.
  destruct calculateHHI_empty_iff as (_ & _ & _ & Hzero).
  apply Hzero. intros req value acc [= <-] Hin.
  repeat (apply elem_of_cons in Hin as [->|Hin]; [by eexists|]).
  by apply elem_of_nil in Hin.
Defined.

(** ** Percentages *)

Lemma round4_ten_thousandths z :
  round4 (inject_Z z / 10000) = Qmake z 10000.
Proof.
  unfold round4. f_equal.
  assert (inject_Z z / 10000 * 10000 + (1 # 2) == inject_Z z + (1 # 2))%Q
    as -> by (field; done).
  pose proof (Qfloor_le (inject_Z z + (1 # 2))) as Hle.
  pose proof (Qlt_floor (inject_Z z + (1 # 2))) as Hlt.
  set (f := Qfloor (inject_Z z + (1 # 2))) in *.
  rewrite inject_Z_plus in Hlt.
  assert (f < z + 1).
  { rewrite Zlt_Qlt, inject_Z_plus. change (inject_Z 1) with 1%Q in *. lra. }
  assert (z < f + 1).
  { rewrite Zlt_Qlt, inject_Z_plus. change (inject_Z 1) with 1%Q in *. lra. }
  lia.
Qed.

(** The quotient of an integer by 10000 is the number nearest to the
    decimal of four places. *)
Lemma fdiv_ten_thousandths z :
  fdiv (inject_Z z) 10000 = binary64 (Qmake z 10000).
Proof.
  unfold fdiv, Qdiv, Qmult, Qinv, inject_Z. cbn [Qnum Qden].
  by rewrite Z.mul_1_r.
Qed.

(** The share of an unsigned amount [a <= T], scaled by a million, is small
    enough for its conversion to a number to be exact. *)
Lemma scaled_share_exact a T :
  0 < T -> 0 <= a <= T ->
  Number ((a * 1000000) ÷ T) = a * 1000000 / T.
Proof.
  intros HT Ha. rewrite Z.quot_div_nonneg by lia.
  apply Number_exact. split; [apply Z.div_pos; lia|].
  assert (a * 1000000 / T <= 1000000); [|lia].
  apply Z.div_le_upper_bound; nia.
Qed.

Lemma holder_le_total holders h :
  Forall unsignedAmount holders -> h ∈ holders ->
  0 <= amountZ h <= total holders.
Proof.
  intros Hu Hin. pose proof (unsigned_amounts holders Hu) as Hnonneg.
  assert (amountZ h ∈ amountZ <$> holders) as Hin'
    by by apply list_elem_of_fmap_2.
  split; [|by apply elem_le_sumZ].
  by apply (proj1 (Forall_forall _ _) Hnonneg).
Qed.

Lemma byPercentageDesc_le_0 a b :
  Qle_bool (byPercentageDesc a b) 0 = true <-> desc percentage a b.
Proof.
  unfold byPercentageDesc, fsub, desc. rewrite binary64_le_0. split; intros; lra.
Qed.

Lemma sortedHolders_Permutation l : sort byPercentageDesc l ≡ₚ l.
Proof. apply sort_Permutation. Qed.

Lemma sortedHolders_sorted l :
  StronglySorted (fun a b => (percentage b <= percentage a)%Q)
                 (sort byPercentageDesc l).
Proof. apply (sort_sorted percentage), byPercentageDesc_le_0. Qed.

Lemma sortedHolders_stable p l :
  List.filter (fun t => Qeq_bool (percentage t) p) (sort byPercentageDesc l)
  = List.filter (fun t => Qeq_bool (percentage t) p) l.
Proof. apply (sort_stable percentage), byPercentageDesc_le_0. Qed.

(** A reported holder is the record of a holder of the list. *)
Lemma topHolders_elem holders t :
  t ∈ topHolders (hhiRecord holders) ->
  exists h, h ∈ holders /\ t = shareOf (total holders) h.
Proof.
  cbn. intros Hin%subseteq_take.
  rewrite sortedHolders_Permutation in Hin.
  apply list_elem_of_fmap in Hin as (h & -> & Hh). eauto.
Qed.

Lemma shareOf_percentage holders h :
  Forall unsignedAmount holders -> 0 < total holders -> h ∈ holders ->
  percentage (shareOf (total holders) h)
  = binary64
      (round4 (inject_Z (amountZ h * 1000000 / total holders) / 10000)).
Proof.
  intros Hu HT Hin. rewrite round4_ten_thousandths. cbn [percentage shareOf].
  rewrite scaled_share_exact by eauto using holder_le_total.
  apply fdiv_ten_thousandths.
Qed.

(** C4: for a holder of amount [a] in a list of unsigned amounts that add up
    to T > 0, the percentage that the callback of step 3 computes, and that
    [topHolders] reports, is the number [round4 ((a * 1000000 / T) / 10000)],
    with an integer division of the scaled amount: the binary64 number
    nearest to that decimal of four places. *)
Theorem reported_percentage holders T r :
  Forall unsignedAmount holders ->
  sumAmounts holders = Normal T -> 0 < T ->
  calculateHHI_of holders = Normal r ->
  (forall h hhiSum,
     h ∈ holders ->
     exists hhiSum' t,
       withPercentage T hhiSum h = Normal (hhiSum', t)
       /\ percentage t
          = binary64
              (round4 (inject_Z (amountZ h * 1000000 / T) / 10000)))
  /\ Forall (fun t =>
       exists h,
         h ∈ holders
         /\ th_account t = account h
         /\ th_amount t = amount h
         /\ percentage t
            = binary64
                (round4 (inject_Z (amountZ h * 1000000 / T) / 10000)))
       (topHolders r).
Proof.
  intros Hu Hsum HT Hr.
  rewrite (calculateHHI_of_total _ T) in Hr by (done || lia).
  injection Hr as <-. apply sumAmounts_Normal in Hsum as [Hparse ->].
  split.
  - intros h hhiSum Hin.
    assert (is_Some (StringToBigInt (amount h))) as [a Ha].
    { apply firstMalformed_None in Hparse.
      by apply (proj1 (Forall_forall _ _) Hparse). }
    rewrite (withPercentage_Some _ _ _ a Ha). do 2 eexists.
    split; [done|]. by apply shareOf_percentage.
  - apply Forall_forall. intros t (h & Hin & ->)%topHolders_elem.
    exists h. repeat (split; [done|]). by apply shareOf_percentage.
Qed.

(** One third and two thirds: 33.3333 and 66.6666. *)
Lemma reported_percentage_thirds :
  exists r,
    calculateHHI_of [ {| account := "A"; amount := "1" |};
                      {| account := "B"; amount := "2" |} ] = Normal r
    /\ (percentage <$> topHolders r)
       = [binary64 (Qmake 666666 10000); binary64 (Qmake 333333 10000)]
    /\ Forall (fun t =>
         exists h,
           h ∈ [ {| account := "A"; amount := "1" |};
                 {| account := "B"; amount := "2" |} ]
           /\ th_account t = account h
           /\ th_amount t = amount h
           /\ percentage t
              = binary64
                  (round4 (inject_Z (amountZ h * 1000000 / 3) / 10000)))
         (topHolders r).
Proof.
  eexists. split; [reflexivity|]. split; [reflexivity|].
  eapply (reported_percentage _ 3); [|reflexivity..].
  repeat constructor; eexists; (split; [reflexivity|discriminate]).
Defined.

(** ** Pagination *)

Lemma zeroRaw_recordsOf up mint pageSize page :
  zeroRaw up mint pageSize page = true -> recordsOf up mint pageSize page = [].
Proof.
  unfold zeroRaw, recordsOf, fetchPage.
  by destruct (rpcRequest up (request mint pageSize page))
    as [[[|acc value]|]|e].
Qed.

Lemma recordsUpTo_S up mint pageSize n :
  recordsUpTo up mint pageSize (S n)
  = recordsUpTo up mint pageSize n ++ recordsOf up mint pageSize n.
Proof.
  unfold recordsUpTo. rewrite seq_S, fmap_app, concat_app. cbn.
  by rewrite app_nil_r.
Qed.

Lemma getAllTokenHolders_run up mint pageSize k fuel :
  (forall i, (i < k)%nat -> continues up mint pageSize i = true) ->
  continues up mint pageSize k = false ->
  (k < fuel)%nat ->
  getAllTokenHolders fuel up mint pageSize
  = Some (Normal (recordsUpTo up mint pageSize (S k)),
          request mint pageSize <$> seq 0 (S k)).
Proof.
  intros Hgo Hstop Hfuel. unfold getAllTokenHolders.
  by rewrite (fetchLoop_run up mint pageSize k).
Qed.

Lemma getAllTokenHolders_returned up mint pageSize fuel fetched log :
  getAllTokenHolders fuel up mint pageSize = Some (fetched, log) ->
  exists k,
    (k < fuel)%nat
    /\ (forall i, (i < k)%nat -> continues up mint pageSize i = true)
    /\ continues up mint pageSize k = false
    /\ fetched = Normal (recordsUpTo up mint pageSize (S k))
    /\ log = request mint pageSize <$> seq 0 (S k).
Proof.
  intros (k & Hk & Hgo & Hstop & -> & ->)%fetchLoop_returned. exists k. eauto.
Qed.

Lemma calculateHHI_fetched fuel up mint holders log :
  getAllTokenHolders fuel up mint DEFAULT_PAGE_SIZE
  = Some (Normal holders, log) ->
  calculateHHI fuel up mint = Some (calculateHHI_of holders).
Proof. unfold calculateHHI. by intros ->. Qed.

(** C5: the loop asks for the pages 0, 1, 2, ... with one page size (1000
    by default).  When the requests of a run are all answered, the page it
    stops at is exactly the first one that returns zero raw accounts or
    fewer records after the filter than the page size: a run that returned
    stopped at such a page, and a run with enough fuel returns at the first
    such page.  A first page of 1000 records after the filter and a second
    page of zero accounts make two requests and return the 1000 records. *)
Theorem pagination_stops_exactly up mint pageSize :
  (forall fuel holders log,
     getAllTokenHolders fuel up mint pageSize = Some (Normal holders, log) ->
     (forall page, (page < length log)%nat ->
        fails up mint pageSize page = false) ->
     exists k,
       log = request mint pageSize <$> seq 0 (S k)
       /\ (forall i, (i < k)%nat ->
             zeroRaw up mint pageSize i || shortPage up mint pageSize i
             = false)
       /\ zeroRaw up mint pageSize k || shortPage up mint pageSize k = true
       /\ holders = recordsUpTo up mint pageSize (S k))
  /\ (forall k,
        (forall i, (i < k)%nat -> fails up mint pageSize i = false) ->
        (forall i, (i < k)%nat ->
           zeroRaw up mint pageSize i || shortPage up mint pageSize i
           = false) ->
        zeroRaw up mint pageSize k || shortPage up mint pageSize k = true ->
        forall fuel, (k < fuel)%nat ->
          getAllTokenHolders fuel up mint pageSize
          = Some (Normal (recordsUpTo up mint pageSize (S k)),
                  request mint pageSize <$> seq 0 (S k)))
  /\ (pageSize = DEFAULT_PAGE_SIZE ->
      forall value holders,
        up (request mint pageSize 0) = HttpResponse (RpcResult (Some value)) ->
        pageHolders value = Normal holders ->
        length holders = 1000%nat ->
        zeroRaw up mint pageSize 1 = true ->
        forall fuel, (2 <= fuel)%nat ->
          getAllTokenHolders fuel up mint pageSize
          = Some (Normal holders,
                  [request mint pageSize 0; request mint pageSize 1])).
Proof.
  assert (forall k,
            (forall i, (i < k)%nat -> fails up mint pageSize i = false) ->
            (forall i, (i < k)%nat ->
               zeroRaw up mint pageSize i || shortPage up mint pageSize i
               = false) ->
            zeroRaw up mint pageSize k || shortPage up mint pageSize k
            = true ->
            forall fuel, (k < fuel)%nat ->
              getAllTokenHolders fuel up mint pageSize
              = Some (Normal (recordsUpTo up mint pageSize (S k)),
                      request mint pageSize <$> seq 0 (S k))) as Hrun.
  { intros k Hok Hgo Hstop fuel Hfuel.
    apply getAllTokenHolders_run; [|..|done].
    - intros i Hi. by rewrite continues_negb, (Hgo i Hi), (Hok i Hi).
    - by rewrite continues_negb, Hstop. }
  split; [|split; [exact Hrun|]].
  - intros fuel holders log
      (k & _ & Hgo & Hstop & [= ->] & ->)%getAllTokenHolders_returned Hok.
    rewrite length_fmap, length_seq in Hok.
    exists k. split; [done|]. split; [|split; [|done]].
    + intros i Hi. specialize (Hgo i Hi). rewrite continues_negb in Hgo.
      apply negb_true_iff in Hgo. by apply orb_false_iff in Hgo as [? _].
    + rewrite continues_negb, (Hok k), orb_false_r in Hstop by lia.
      by apply negb_false_iff.
  - intros -> value holders Hup Hdec Hlen Hzero fuel Hfuel.
    assert (fetchPage up (request mint DEFAULT_PAGE_SIZE 0)
            = Normal (Some holders)) as Hpage.
    { unfold fetchPage, rpcRequest. rewrite Hup. cbn.
      destruct value as [|acc value].
      - cbn in Hdec. injection Hdec as <-. done.
      - by rewrite Hdec. }
    rewrite (getAllTokenHolders_run up mint DEFAULT_PAGE_SIZE 1).
    + rewrite !recordsUpTo_S, (zeroRaw_recordsOf _ _ _ 1 Hzero).
      unfold recordsUpTo, recordsOf. rewrite Hpage. cbn.
      by rewrite app_nil_r.
    + intros i Hi. assert (i = 0)%nat as -> by lia.
      unfold continues. rewrite Hpage, Hlen. done.
    + by rewrite continues_negb, Hzero.
    + lia.
Qed.

(** Scenario C. *)
Lemma pagination_scenarioC :
  getAllTokenHolders 2 scenarioC "mint" 1000
  = Some (Normal ((fun i : nat => {| account := "holder" +:+ pretty i;
                                     amount := "1" |}) <$> seq 0 1000),
          [ {| req_mint := "mint"; req_page := 0; req_limit := 1000 |};
            {| req_mint := "mint"; req_page := 1; req_limit := 1000 |} ])
  /\ exists k,
       (k < 2)%nat
       /\ zeroRaw scenarioC "mint" 1000 k || shortPage scenarioC "mint" 1000 k
          = true.
Proof.
  destruct (pagination_stops_exactly scenarioC "mint" 1000)
    as (Hreturned & _ & Hscenario).
  assert (getAllTokenHolders 2 scenarioC "mint" 1000
          = Some (Normal ((fun i : nat =>
                             {| account := "holder" +:+ pretty i;
                                amount := "1" |}) <$> seq 0 1000),
                  [ {| req_mint := "mint"; req_page := 0;
                       req_limit := 1000 |};
                    {| req_mint := "mint"; req_page := 1;
                       req_limit := 1000 |} ])) as Hrun.
  { apply (Hscenario eq_refl fullPage); [reflexivity| |reflexivity..|lia].
    vm_compute. reflexivity. }
  split; [exact Hrun|].
  destruct (Hreturned _ _ _ Hrun) as (k & Hlog & _ & Hstop & _).
  - intros [|[|page]] Hpage; [vm_compute; reflexivity..|cbn in Hpage; lia].
  - exists k. split; [|exact Hstop].
    apply (f_equal length) in Hlog. rewrite length_fmap, length_seq in Hlog.
    cbn in Hlog. lia.
Defined.

(** C6: when the pages before page [k] sent the loop on and the call for
    page [k] fails, in transport or in decoding, the loop ends there: the
    fetch returns normally, with the records of the pages before [k], page
    [k] was asked for once, and [getTokenBalances] and [calculateHHI] go on
    with these records. *)
Theorem failure_ends_pagination up mint pageSize k :
  (forall i, (i < k)%nat -> continues up mint pageSize i = true) ->
  transportFails up mint pageSize k || decodeFails up mint pageSize k = true ->
  forall fuel, (k < fuel)%nat ->
    getAllTokenHolders fuel up mint pageSize
    = Some (Normal (recordsUpTo up mint pageSize k),
            request mint pageSize <$> seq 0 (S k))
    /\ (pageSize = DEFAULT_PAGE_SIZE ->
        getTokenBalances fuel up mint
        = Some (Normal (recordsUpTo up mint pageSize k))
        /\ calculateHHI fuel up mint
           = Some (calculateHHI_of (recordsUpTo up mint pageSize k))).
Proof.
  intros Hgo Hfail fuel Hfuel. fold (fails up mint pageSize k) in Hfail.
  assert (getAllTokenHolders fuel up mint pageSize
          = Some (Normal (recordsUpTo up mint pageSize k),
                  request mint pageSize <$> seq 0 (S k))) as Hfetch.
  { rewrite (getAllTokenHolders_run up mint pageSize k);
      [|done|by apply fails_continues|done].
    by rewrite recordsUpTo_S, fails_recordsOf, app_nil_r. }
  split; [done|]. intros ->.
  unfold getTokenBalances, calculateHHI. by rewrite Hfetch.
Qed.

(** Scenario D: the second call fails; the 1000 holders of the first page
    are returned and the index is computed from them. *)
Lemma failure_scenarioD :
  getAllTokenHolders 2 scenarioD "mint" 1000
  = Some (Normal ((fun i : nat => {| account := "holder" +:+ pretty i;
                                     amount := "1" |}) <$> seq 0 1000),
          [ {| req_mint := "mint"; req_page := 0; req_limit := 1000 |};
            {| req_mint := "mint"; req_page := 1; req_limit := 1000 |} ])
  /\ exists r, calculateHHI 2 scenarioD "mint" = Some (Normal r)
               /\ holderCount r = 1000%nat.
Proof.
  assert (forall i, (i < 1)%nat -> continues scenarioD "mint" 1000 i = true)
    as Hgo.
  { intros i Hi. assert (i = 0)%nat as -> by lia. vm_compute. reflexivity. }
  destruct (failure_ends_pagination scenarioD "mint" 1000 1 Hgo eq_refl 2)
    as (Hfetch & Hrest); [lia|].
  destruct (Hrest eq_refl) as [_ Hhhi].
  split.
  - rewrite Hfetch. vm_compute. reflexivity.
  - rewrite Hhhi. eexists. split; vm_compute; reflexivity.
Defined.

(** ** The aggregate *)

Lemma recordsUpTo_elem up mint pageSize n h :
  h ∈ recordsUpTo up mint pageSize n ->
  exists req value,
    up req = HttpResponse (RpcResult (Some value))
    /\ Parsed (account h) (amount h) ∈ value
    /\ (account h ∉ EXCLUDED_ADDRESSES)
    /\ amount h ≠ "0".
Proof.
  rewrite recordsUpTo_qualifies.
  intros (acc & Hin & Hq)%list_elem_of_omap.
  apply qualifies_Some in Hq as (-> & Hex & Hne).
  apply list_elem_of_In, in_concat in Hin as (raw & Hraw & Hin).
  apply list_elem_of_In in Hraw, Hin.
  apply list_elem_of_fmap in Hraw as (page & -> & _).
  apply rawOf_elem in Hin as (value & Hup & Hin). eauto 10.
Qed.

(** On [zeroNumeralPage] the account of amount "00" passes the filter: the
    result lists a holder whose amount is zero. *)
Lemma zero_numeral_kept :
  getAllTokenHolders 1 zeroNumeralUpstream "mint" DEFAULT_PAGE_SIZE
  = Some (Normal [ {| account := "A"; amount := "5" |};
                   {| account := "B"; amount := "00" |} ],
          [ {| req_mint := "mint"; req_page := 0; req_limit := 1000 |} ])
  /\ exists r,
       calculateHHI 1 zeroNumeralUpstream "mint" = Some (Normal r)
       /\ r ≠ emptyResult
       /\ totalSupply r = "5"
       /\ (exists t,
             t ∈ topHolders r
             /\ th_account t = "B"
             /\ StringToBigInt (th_amount t) = Some 0)
       /\ ~ Forall (fun t =>
                      exists a, StringToBigInt (th_amount t) = Some a /\ 0 < a)
                   (topHolders r).
Proof.
  split; [vm_compute; reflexivity|].
  eexists. split; [vm_compute; reflexivity|]. split; [discriminate|].
  split; [reflexivity|]. split.
  - eexists. split; [right; left|]. by split.
  - intros Hall. apply Forall_cons in Hall as [_ Hall].
    apply Forall_cons in Hall as [(a & Ha & Hpos) _].
    vm_compute in Ha. injection Ha as <-. lia.
Qed.

(** C7, as the code has it: a result of [calculateHHI] other than the
    sentinel has for [totalSupply] the decimal numeral of the exact sum of
    the amounts of the fetched holders, which [BigInt] reads back as that
    sum.  No fetched holder has an owner in [EXCLUDED_ADDRESSES] or the
    amount string "0", so that an amount which is the canonical numeral of
    an unsigned integer is positive; and so for the holders that the result
    lists.  (The filter compares the amount with the string "0": another
    numeral of zero is kept.) *)
Theorem aggregate_invariant fuel up mint r :
  calculateHHI fuel up mint = Some (Normal r) ->
  r ≠ emptyResult ->
  exists holders log,
    getAllTokenHolders fuel up mint DEFAULT_PAGE_SIZE
    = Some (Normal holders, log)
    /\ totalSupply r = toString (total holders)
    /\ StringToBigInt (totalSupply r) = Some (total holders)
    /\ holderCount r = length holders
    /\ Forall (fun h =>
         amount h ≠ "0"
         /\ StringToBigInt (amount h) = Some (amountZ h)
         /\ (canonicalAmount (amount h) = true -> 0 < amountZ h)
         /\ (account h ∉ EXCLUDED_ADDRESSES)) holders
    /\ Forall (fun t =>
         (th_account t ∉ EXCLUDED_ADDRESSES)
         /\ th_amount t ≠ "0"
         /\ exists h, h ∈ holders
                      /\ th_account t = account h
                      /\ th_amount t = amount h
                      /\ (canonicalAmount (amount h) = true
                          -> 0 < amountZ h)) (topHolders r).
Proof.
  intros Hcalc Hne. unfold calculateHHI in Hcalc.
  destruct (getAllTokenHolders fuel up mint DEFAULT_PAGE_SIZE)
    as [[fetched log]|] eqn:Hfetch; [|done].
  cbn in Hcalc. injection Hcalc as Hcalc.
  destruct (getAllTokenHolders_returned _ _ _ _ _ _ Hfetch)
    as (k & _ & _ & _ & -> & _).
  set (holders := recordsUpTo up mint DEFAULT_PAGE_SIZE (S k)) in *.
  fold (calculateHHI_of holders) in Hcalc. exists holders, log.
  split; [done|].
  rewrite calculateHHI_of_spec in Hcalc.
  assert (firstMalformed holders = None) as Hparse.
  { destruct holders as [|h0 rest]; [done|].
    by destruct (firstMalformed (h0 :: rest)). }
  assert (Forall (fun h =>
            amount h ≠ "0"
            /\ StringToBigInt (amount h) = Some (amountZ h)
            /\ (canonicalAmount (amount h) = true -> 0 < amountZ h)
            /\ (account h ∉ EXCLUDED_ADDRESSES)) holders) as Hall.
  { apply Forall_forall. intros h Hin.
    pose proof Hin as (req & value & Hup & Hraw & Hex & Hnz)%recordsUpTo_elem.
    apply firstMalformed_None in Hparse.
    destruct (proj1 (Forall_forall _ _) Hparse h Hin) as [a Ha].
    rewrite (amountZ_Some h a Ha). repeat split; [done..| |done].
    intros (a' & Ha' & _ & Hpos)%canonicalAmount_value.
    assert (a' = a) as -> by congruence. auto. }
  destruct holders as [|h0 rest]; [congruence|].
  rewrite Hparse in Hcalc.
  destruct (total (h0 :: rest) =? 0); [congruence|].
  injection Hcalc as <-. split; [done|].
  split; [apply StringToBigInt_toString|].
  split; [done|]. split; [done|].
  apply Forall_forall. intros t (h & Hin & ->)%topHolders_elem.
  destruct (proj1 (Forall_forall _ _) Hall h Hin) as (Hnz & _ & Hpos & Hex).
  split; [done|]. split; [done|]. exists h. auto.
Qed.

Lemma mixedUpstream_canonical : canonicalUpstream mixedUpstream.
Proof.
  intros req value owner amt [= <-] Hin.
  repeat (apply elem_of_cons in Hin as [[= -> ->]|Hin]; [reflexivity|]).
  by apply elem_of_nil in Hin.
Qed.

(** The invariant on [mixedPage]: two holders, a total of 14. *)
Lemma aggregate_invariant_mixed :
  exists r,
    calculateHHI 1 mixedUpstream "mint" = Some (Normal r)
    /\ r ≠ emptyResult
    /\ totalSupply r = "14"
    /\ exists holders log,
         getAllTokenHolders 1 mixedUpstream "mint" DEFAULT_PAGE_SIZE
         = Some (Normal holders, log)
         /\ totalSupply r = toString (total holders)
         /\ StringToBigInt (totalSupply r) = Some (total holders)
         /\ holderCount r = length holders
         /\ Forall (fun h =>
              amount h ≠ "0"
              /\ StringToBigInt (amount h) = Some (amountZ h)
              /\ (canonicalAmount (amount h) = true -> 0 < amountZ h)
              /\ (account h ∉ EXCLUDED_ADDRESSES)) holders
         /\ Forall (fun t =>
              (th_account t ∉ EXCLUDED_ADDRESSES)
              /\ th_amount t ≠ "0"
              /\ exists h, h ∈ holders
                           /\ th_account t = account h
                           /\ th_amount t = amount h
                           /\ (canonicalAmount (amount h) = true
                               -> 0 < amountZ h)) (topHolders r).
Proof.
  eexists. split; [vm_compute; reflexivity|]. split; [discriminate|].
  split; [reflexivity|].
  apply aggregate_invariant; [vm_compute; reflexivity|discriminate].
Defined.

(** ** Ranking *)

(** C8: a result other than the sentinel lists the first
    [min 10 holderCount] records of the holder sequence sorted by descending
    percentage, records of equal percentage keeping their fetch order. *)
Theorem topHolders_ranking holders r :
  calculateHHI_of holders = Normal r ->
  r ≠ emptyResult ->
  exists sorted,
    topHolders r = take (min 10 (holderCount r)) sorted
    /\ length (topHolders r) = min 10 (holderCount r)
    /\ sorted ≡ₚ shareOf (total holders) <$> holders
    /\ StronglySorted (fun a b => (percentage b <= percentage a)%Q) sorted
    /\ forall p,
         List.filter (fun t => Qeq_bool (percentage t) p) sorted
         = List.filter (fun t => Qeq_bool (percentage t) p)
             (shareOf (total holders) <$> holders).
Proof.
  intros Hcalc Hne. rewrite calculateHHI_of_spec in Hcalc.
  destruct holders as [|h0 rest]; [congruence|].
  destruct (firstMalformed (h0 :: rest)); [done|].
  destruct (total (h0 :: rest) =? 0); [congruence|].
  injection Hcalc as <-. set (holders := h0 :: rest).
  exists (sort byPercentageDesc (shareOf (total holders) <$> holders)).
  assert (length (sort byPercentageDesc (shareOf (total holders) <$> holders))
          = length holders) as Hlen.
  { by rewrite sortedHolders_Permutation, length_fmap. }
  cbn [topHolders holderCount hhiRecord]. fold holders.
  split; [|split; [|split; [|split]]].
  - destruct (Nat.le_gt_cases 10 (length holders)).
    + by rewrite Nat.min_l.
    + rewrite Nat.min_r by lia. by rewrite !take_ge by lia.
  - by rewrite length_take, Hlen.
  - apply sortedHolders_Permutation.
  - apply sortedHolders_sorted.
  - intros p. apply sortedHolders_stable.
Qed.

(** On [tiedHolders] the larger shares come first and C stays in front of
    E. *)
Lemma topHolders_ranking_ties :
  exists r,
    calculateHHI_of tiedHolders = Normal r
    /\ (th_account <$> topHolders r) = ["C"; "E"; "A"; "D"]
    /\ exists sorted,
         topHolders r = take (min 10 (holderCount r)) sorted
         /\ length (topHolders r) = min 10 (holderCount r).
Proof.
  eexists. split; [reflexivity|]. split; [reflexivity|].
  edestruct (topHolders_ranking tiedHolders) as (sorted & Htop & Hlen & _);
    [reflexivity|discriminate|].
  exists sorted. split; [exact Htop|exact Hlen].
Defined.

(** ** Owners with several token accounts *)




(** ** Malformed amounts *)

Lemma text_of_app (s t : string) : text_of (s +:+ t) = text_of s ++ text_of t.
Proof.
  induction s as [|c s IH]; [done|].
  change (String c s +:+ t) with (String c (s +:+ t)). cbn. by rewrite IH.
Qed.

Lemma rendered_short s :
  (String.length s <= kMaxRenderedLength)%nat -> rendered s = text_of s.
Proof.
  intros Hlen. unfold rendered.
  by destruct (Nat.ltb_spec kMaxRenderedLength (String.length s)); [lia|].
Qed.

(** C10: when an amount of the fetched holders does not parse,
    [calculateHHI] throws an error, to its caller too, and does not return
    the empty sentinel.  The message of the error is "HHI calculation
    failed: Cannot convert ... to a BigInt" around the first such amount as
    the engine renders it: the amount itself when it has at most 1000 code
    units. *)
Theorem malformed_amount_fails holders h :
  h ∈ holders ->
  StringToBigInt (amount h) = None ->
  exists s,
    firstMalformed holders = Some s
    /\ StringToBigInt s = None
    /\ calculateHHI_of holders
       = Throw (Error (text_of "HHI calculation failed: "
                       ++ text_of "Cannot convert " ++ rendered s
                       ++ text_of " to a BigInt"))
    /\ ((String.length s <= 1000)%nat ->
        calculateHHI_of holders
        = Throw (Error (text_of ("HHI calculation failed: " +:+
                                 "Cannot convert " +:+ s +:+ " to a BigInt"))))
    /\ calculateHHI_of holders ≠ Normal emptyResult
    /\ forall fuel up mint log,
         getAllTokenHolders fuel up mint DEFAULT_PAGE_SIZE
         = Some (Normal holders, log) ->
         calculateHHI fuel up mint
         = Some (Throw (Error (text_of "HHI calculation failed: "
                               ++ text_of "Cannot convert " ++ rendered s
                               ++ text_of " to a BigInt"))).
Proof.
  intros Hin Hbad.
  destruct (firstMalformed_Some holders) as (s & Hs & Hnone); [eauto|].
  assert (calculateHHI_of holders = Throw (Error (conversionFailure s)))
    as Hthrow.
  { rewrite calculateHHI_of_spec, Hs.
    destruct holders; [by apply elem_of_nil in Hin|done]. }
  exists s. repeat (split; [done|]). split; [|split; [by rewrite Hthrow|]].
  - intros Hlen. rewrite Hthrow. unfold conversionFailure.
    by rewrite (rendered_short s Hlen), !text_of_app.
  - intros fuel up mint log Hfetch.
    by rewrite (calculateHHI_fetched _ _ _ _ _ Hfetch), Hthrow.
Qed.

(** A holder list whose second amount is not a numeral. *)
Lemma malformed_amount_example :
  calculateHHI_of [ {| account := "X"; amount := "100" |};
                    {| account := "Y"; amount := "12abc" |} ]
  = Throw (Error "HHI calculation failed: Cannot convert 12abc to a BigInt").
Proof.
  destruct (malformed_amount_fails
              [ {| account := "X"; amount := "100" |};
                {| account := "Y"; amount := "12abc" |} ]
              {| account := "Y"; amount := "12abc" |})
    as (s & Hs & _ & Hthrow & _).
  - right. left.
  - reflexivity.
  - rewrite Hthrow. injection Hs as <-. reflexivity.
Defined.

(** * Further properties of the service *)

(** ** Requests and records *)

Lemma continues_records up mint pageSize page :
  continues up mint pageSize page = true ->
  (pageSize <= length (recordsOf up mint pageSize page))%nat.
Proof.
  unfold continues, recordsOf.
  destruct (fetchPage up (request mint pageSize page)) as [[holders|]|e];
    [|done..].
  intros Hlen%negb_true_iff. by apply Nat.ltb_ge in Hlen.
Qed.

Lemma full_pages_records up mint pageSize n :
  (forall i, (i < n)%nat -> continues up mint pageSize i = true) ->
  (n * pageSize <= length (recordsUpTo up mint pageSize n))%nat.
Proof.
  induction n as [|n IH]; intros Hgo; [cbn; lia|].
  rewrite recordsUpTo_S, length_app.
  pose proof (continues_records up mint pageSize n (Hgo n ltac:(lia))).
  specialize (IH ltac:(intros; apply Hgo; lia)). lia.
Qed.

(** X1: every request but the last one brought at least a page size of
    records: a fetch that returned [holders] after [length log] requests
    has [pageSize * (length log - 1) <= length holders], and it made at
    least one request. *)
Theorem requests_bounded_by_records fuel up mint pageSize holders log :
  getAllTokenHolders fuel up mint pageSize = Some (Normal holders, log) ->
  (1 <= length log)%nat
  /\ (pageSize * (length log - 1) <= length holders)%nat.
Proof.
  intros (k & _ & Hgo & _ & [= ->] & ->)%getAllTokenHolders_returned.
  rewrite length_fmap, length_seq. split; [lia|].
  rewrite recordsUpTo_S, length_app.
  pose proof (full_pages_records up mint pageSize k Hgo). lia.
Qed.

(** Scenario C: two requests for a thousand records. *)
Lemma requests_bounded_scenarioC :
  exists holders log,
    getAllTokenHolders 2 scenarioC "mint" 1000 = Some (Normal holders, log)
    /\ (1 <= length log)%nat
    /\ (1000 * (length log - 1) <= length holders)%nat.
Proof.
  eexists _, _. split; [vm_compute; reflexivity|].
  eapply (requests_bounded_by_records 2 scenarioC "mint" 1000).
  vm_compute. reflexivity.
Defined.

(** ** A service that sends canonical amounts *)

Lemma canonical_records up mint pageSize n :
  canonicalUpstream up ->
  Forall (fun h => exists a, StringToBigInt (amount h) = Some a /\ 0 < a)
         (recordsUpTo up mint pageSize n).
Proof.
  intros Hcanon. apply Forall_forall.
  intros h (req & value & Hup & Hin & _ & Hnz)%recordsUpTo_elem.
  destruct (canonicalAmount_value (amount h)) as (a & Ha & _ & Hpos);
    [by eapply Hcanon|].
  exists a. auto.
Qed.

Lemma positive_total holders :
  holders ≠ [] ->
  Forall (fun h => exists a, StringToBigInt (amount h) = Some a /\ 0 < a)
         holders ->
  firstMalformed holders = None /\ 0 < total holders.
Proof.
  intros Hne Hall. split.
  - apply firstMalformed_None. eapply Forall_impl; [exact Hall|].
    intros h (a & -> & _). by eexists.
  - destruct Hall as [|h rest (a & Ha & Hpos) Hrest]; [done|].
    rewrite total_cons, (amountZ_Some h a Ha).
    assert (0 <= total rest); [|lia].
    apply sumZ_nonneg, Forall_fmap. eapply Forall_impl; [exact Hrest|].
    intros h' (a' & Ha' & ?). cbn. rewrite (amountZ_Some h' a' Ha'). lia.
Qed.

(** X2: on a service that sends canonical amounts, [calculateHHI] never
    throws: a call that ends returns a result, and the result is the empty
    sentinel exactly when no record was fetched. *)
Theorem canonical_service_never_fails fuel up mint outcome :
  canonicalUpstream up ->
  calculateHHI fuel up mint = Some outcome ->
  exists holders log r,
    getAllTokenHolders fuel up mint DEFAULT_PAGE_SIZE
    = Some (Normal holders, log)
    /\ outcome = Normal r
    /\ (r = emptyResult <-> holders = []).
Proof.
  intros Hcanon Hcalc. unfold calculateHHI in Hcalc.
  destruct (getAllTokenHolders fuel up mint DEFAULT_PAGE_SIZE)
    as [[fetched log]|] eqn:Hfetch; [|done].
  cbn in Hcalc. injection Hcalc as <-.
  destruct (getAllTokenHolders_returned _ _ _ _ _ _ Hfetch)
    as (k & _ & _ & _ & -> & _).
  pose proof (canonical_records up mint DEFAULT_PAGE_SIZE (S k) Hcanon)
    as Hall.
  set (holders := recordsUpTo up mint DEFAULT_PAGE_SIZE (S k)) in *.
  fold (calculateHHI_of holders). rewrite calculateHHI_of_spec.
  exists holders, log.
  destruct holders as [|h rest] eqn:E; [by exists emptyResult|].
  destruct (positive_total (h :: rest)) as [-> Hpos]; [done..|].
  destruct (Z.eqb_spec (total (h :: rest)) 0); [lia|].
  exists (hhiRecord (h :: rest)). split; [done|]. split; [done|].
  split; [|done]. intros Heq. by apply hhiRecord_not_empty in Heq.
Qed.

(** On [mixedUpstream] the call returns a result for two holders. *)
Lemma canonical_service_mixed :
  exists holders log r,
    getAllTokenHolders 1 mixedUpstream "mint" DEFAULT_PAGE_SIZE
    = Some (Normal holders, log)
    /\ calculateHHI 1 mixedUpstream "mint" = Some (Normal r)
    /\ holderCount r = 2%nat.
Proof.
  destruct (canonical_service_never_fails 1 mixedUpstream "mint"
              (calculateHHI_of [ {| account := "A"; amount := "5" |};
                                 {| account := "A"; amount := "9" |} ])
              mixedUpstream_canonical eq_refl)
    as (holders & log & r & Hfetch & Hr & _).
  exists holders, log, r. split; [exact Hfetch|].
  split; [vm_compute; vm_compute in Hr; by rewrite Hr|].
  vm_compute in Hr. by injection Hr as <-.
Defined.

(** ** The order of the holders *)

Lemma sumZ_Permutation l l' : l ≡ₚ l' -> sumZ l = sumZ l'.
Proof.
  induction 1 as [|x l l' _ IH|x y l|l l' l'' _ IH1 _ IH2];
    rewrite ?sumZ_cons; [done|lia|lia|congruence].
Qed.

Lemma total_Permutation holders holders' :
  holders ≡ₚ holders' -> total holders = total holders'.
Proof. intros Hp. unfold total. apply sumZ_Permutation. by rewrite Hp. Qed.

Lemma firstMalformed_Permutation holders holders' :
  holders ≡ₚ holders' ->
  firstMalformed holders = None -> firstMalformed holders' = None.
Proof. rewrite !firstMalformed_None. by intros ->. Qed.

(** X3: the index does not depend on the order in which the holders were
    fetched: two holder lists that are permutations of one another give
    results with the same [hhi], [totalSupply], [holderCount] and
    [concentrationLevel]. *)
Theorem index_independent_of_order holders holders' r :
  holders ≡ₚ holders' ->
  calculateHHI_of holders = Normal r ->
  exists r',
    calculateHHI_of holders' = Normal r'
    /\ hhi r' = hhi r
    /\ totalSupply r' = totalSupply r
    /\ holderCount r' = holderCount r
    /\ concentrationLevel r' = concentrationLevel r.
Proof.
  intros Hp. rewrite !calculateHHI_of_spec.
  destruct holders as [|h rest].
  { apply Permutation_nil in Hp as ->. intros [= <-]. by exists emptyResult. }
  destruct holders' as [|h' rest'].
  { symmetry in Hp. by apply Permutation_nil in Hp. }
  destruct (firstMalformed (h :: rest)) eqn:Hparse; [done|].
  rewrite (firstMalformed_Permutation _ _ Hp Hparse).
  rewrite <- (total_Permutation _ _ Hp).
  destruct (total (h :: rest) =? 0); intros [= <-]; [by exists emptyResult|].
  exists (hhiRecord (h' :: rest')).
  assert (hhi (hhiRecord (h' :: rest')) = hhi (hhiRecord (h :: rest))) as Hhhi.
  { cbn [hhi hhiRecord]. rewrite <- (total_Permutation _ _ Hp). f_equal.
    apply sumZ_Permutation. by rewrite Hp. }
  split; [done|]. split; [done|]. cbn [totalSupply holderCount hhiRecord].
  rewrite <- (total_Permutation _ _ Hp). split; [done|].
  split; [by rewrite Hp|].
  cbn [hhi hhiRecord concentrationLevel] in *. by rewrite Hhhi.
Qed.

(** [tiedHolders] in reverse order. *)
Lemma index_independent_of_order_tied :
  exists r r',
    calculateHHI_of tiedHolders = Normal r
    /\ calculateHHI_of (reverse tiedHolders) = Normal r'
    /\ hhi r' = hhi r
    /\ (th_account <$> topHolders r) = ["C"; "E"; "A"; "D"]
    /\ (th_account <$> topHolders r') = ["E"; "C"; "A"; "D"].
Proof.
  eexists.
  edestruct (index_independent_of_order tiedHolders (reverse tiedHolders))
    as (r' & Hr' & Hhhi & _);
    [symmetry; apply reverse_Permutation|reflexivity|].
  exists r'. split; [reflexivity|]. split; [exact Hr'|]. split; [exact Hhhi|].
  split; [reflexivity|]. vm_compute in Hr'. by injection Hr' as <-.
Defined.

(** ** Dominant and few holders *)

Lemma term_le_terms T l x :
  0 < T -> x ∈ l -> squaredTerm x T <= terms T l.
Proof.
  intros HT. induction l as [|a l IH]; [by intros ?%elem_of_nil|].
  rewrite terms_cons. pose proof (squaredTerm_bounds T HT a) as [? _].
  pose proof (terms_bounds T HT l) as [? _].
  intros [->|Hin]%elem_of_cons; [lia|]. specialize (IH Hin). lia.
Qed.

Lemma hhi_unsigned holders :
  Forall unsignedAmount holders -> 0 < total holders ->
  hhi (hhiRecord holders) = terms (total holders) (amountZ <$> holders).
Proof.
  intros Hu HT. cbn [hhi hhiRecord]. rewrite terms_holders.
  apply Number_exact. pose proof (unsigned_terms_range holders Hu HT). lia.
Qed.

Lemma hhiRecord_level holders :
  concentrationLevel (hhiRecord holders)
  = getConcentrationLevel (hhi (hhiRecord holders)).
Proof. done. Qed.

(** X4: a holder whose amount [a] has [T * T <= 2 * a * a] (about 70.72%
    of the supply) makes the index at least 5000 and the level "Extreme
    concentration (risk of manipulation)", whatever the other holders
    have. *)
Theorem dominant_holder_extreme holders T h :
  Forall unsignedAmount holders ->
  sumAmounts holders = Normal T -> 0 < T ->
  h ∈ holders ->
  T * T <= 2 * (amountZ h * amountZ h) ->
  exists r,
    calculateHHI_of holders = Normal r
    /\ 5000 <= hhi r
    /\ concentrationLevel r = "Extreme concentration (risk of manipulation)".
Proof.
  intros Hu Hsum HT Hin Hdom. exists (hhiRecord holders).
  split; [apply (calculateHHI_of_total _ T); [done|lia]|].
  apply sumAmounts_Normal in Hsum as [_ ->].
  assert (5000 <= hhi (hhiRecord holders)) as Hhhi.
  { rewrite hhi_unsigned by done.
    etrans; [|apply (term_le_terms _ _ (amountZ h) HT);
              by apply list_elem_of_fmap_2].
    unfold squaredTerm. apply Z.div_le_lower_bound; nia. }
  split; [done|]. rewrite hhiRecord_level. unfold getConcentrationLevel.
  by destruct (Z.leb_spec 5000 (hhi (hhiRecord holders))); [|lia].
Qed.

(** A holder of 71 out of 100, and 29 holders of 1. *)
Lemma dominant_holder_71 :
  exists r,
    calculateHHI_of ({| account := "W"; amount := "71" |}
                     :: replicate 29 {| account := "S"; amount := "1" |})
    = Normal r
    /\ 5000 <= hhi r
    /\ concentrationLevel r = "Extreme concentration (risk of manipulation)".
Proof.
  apply (dominant_holder_extreme _ 100 {| account := "W"; amount := "71" |});
    [|reflexivity|reflexivity|left|vm_compute; discriminate].
  repeat constructor; eexists; (split; [reflexivity|discriminate]).
Defined.

Lemma squares_Cauchy l :
  sumZ l * sumZ l <= Z.of_nat (length l) * squares l.
Proof.
  induction l as [|a l IH]; [done|].
  rewrite sumZ_cons, squares_cons. cbn [length]. rewrite Nat2Z.inj_succ.
  set (n := Z.of_nat (length l)) in *. set (s := sumZ l) in *.
  set (q := squares l) in *.
  assert (0 <= n) by (unfold n; lia).
  assert (0 <= q).
  { unfold q, squares. apply sumZ_nonneg, Forall_fmap, Forall_forall.
    intros x _. cbn. nia. }
  destruct (Z.eq_dec n 0) as [Hn|Hn].
  - assert (s = 0) as -> by nia. nia.
  - assert (2 * a * s <= n * (a * a) + q) as Hmid.
    { apply (Z.mul_le_mono_pos_l _ _ n); [lia|].
      assert (n * (n * (a * a) + q) - n * (2 * a * s)
              = (n * a - s) * (n * a - s) + (n * q - s * s)) as E by ring.
      pose proof (Z.square_nonneg (n * a - s)). lia. }
    assert (Z.succ n * (a * a + q) - (a + s) * (a + s)
            = (n * (a * a) + q - 2 * a * s) + (n * q - s * s)) as E by ring.
    lia.
Qed.

(** Each quotient falls short of the exact term by less than one. *)
Lemma terms_lower T l :
  0 < T ->
  squares l * 10000 + Z.of_nat (length l)
  <= (terms T l + Z.of_nat (length l)) * (T * T).
Proof.
  intros HT. induction l as [|a l IH]; [done|].
  rewrite terms_cons, squares_cons. cbn [length]. rewrite Nat2Z.inj_succ.
  assert (a * a * 10000 < (squaredTerm a T + 1) * (T * T)).
  { unfold squaredTerm.
    pose proof (Z.mul_succ_div_gt (a * a * 10000) (T * T) ltac:(nia)).
    lia. }
  lia.
Qed.

(** X5: the index is a truncation: with [n] holders of unsigned amounts,
    [hhi * T^2 <= 10000 * sum of a^2 < (hhi + n) * T^2]; hence
    [n * (hhi + n) > 10000], and a token with at most six holders is never
    "Decentralized". *)
Theorem index_truncation holders T :
  Forall unsignedAmount holders ->
  sumAmounts holders = Normal T -> 0 < T ->
  exists r,
    calculateHHI_of holders = Normal r
    /\ hhi r * (T * T) <= 10000 * squares (amountZ <$> holders)
    /\ 10000 * squares (amountZ <$> holders)
       < (hhi r + Z.of_nat (holderCount r)) * (T * T)
    /\ 10000 < Z.of_nat (holderCount r) * (hhi r + Z.of_nat (holderCount r))
    /\ ((holderCount r <= 6)%nat -> concentrationLevel r ≠ "Decentralized").
Proof.
  intros Hu Hsum HT. exists (hhiRecord holders).
  split; [apply (calculateHHI_of_total _ T); [done|lia]|].
  apply sumAmounts_Normal in Hsum as [_ ->].
  rewrite hhiRecord_level, hhi_unsigned by done. cbn [holderCount hhiRecord].
  pose proof (terms_bounds _ HT (amountZ <$> holders)) as [Hnn Hup].
  pose proof (terms_lower _ (amountZ <$> holders) HT) as Hlow.
  pose proof (squares_Cauchy (amountZ <$> holders)) as HCS.
  rewrite length_fmap in Hlow, HCS. fold (total holders) in HCS.
  set (n := Z.of_nat (length holders)) in *.
  set (t := terms (total holders) (amountZ <$> holders)) in *.
  set (q := squares (amountZ <$> holders)) in *.
  assert (0 < n).
  { unfold n. destruct holders; [unfold total in HT; cbn in HT; lia|].
    cbn [length]. lia. }
  split; [lia|]. split; [lia|].
  assert (10000 < n * (t + n)) as Hn by nia.
  split; [done|]. intros Hsix. unfold getConcentrationLevel.
  assert (1500 <= t) by nia.
  destruct (5000 <=? t); [done|]. destruct (2500 <=? t); [done|].
  by destruct (Z.leb_spec 1500 t); [|lia].
Qed.

(** A thousand equal holders: every quotient is 0, and so is the index. *)
Lemma index_truncation_thousand :
  exists r,
    calculateHHI_of ((fun i : nat => {| account := "holder" +:+ pretty i;
                                        amount := "1" |}) <$> seq 0 1000)
    = Normal r
    /\ hhi r = 0
    /\ 10000 < Z.of_nat (holderCount r) * (hhi r + Z.of_nat (holderCount r)).
Proof.
  destruct (index_truncation
              ((fun i : nat => {| account := "holder" +:+ pretty i;
                                  amount := "1" |}) <$> seq 0 1000) 1000)
    as (r & Hr & _ & _ & Hn & _); [|vm_compute; reflexivity|reflexivity|].
  - apply Forall_fmap, Forall_forall. intros i _.
    exists 1. split; [reflexivity|discriminate].
  - exists r. split; [exact Hr|]. split; [|exact Hn].
    vm_compute in Hr. by injection Hr as <-.
Defined.

(** ** The label of the sentinel *)

Lemma getConcentrationLevel_active hhi :
  getConcentrationLevel hhi ≠ "No active holders".
Proof.
  unfold getConcentrationLevel.
  destruct (5000 <=? hhi); [done|]. destruct (2500 <=? hhi); [done|].
  by destruct (1500 <=? hhi).
Qed.

(** X6: a result of [calculateHHI] carries the label "No active holders"
    exactly when it is the empty sentinel, that is when its [holderCount] is
    0; every other result carries the label that [getConcentrationLevel]
    gives to its [hhi]. *)
Theorem no_active_holders_iff holders r :
  calculateHHI_of holders = Normal r ->
  (concentrationLevel r = "No active holders" <-> r = emptyResult)
  /\ (holderCount r = 0%nat <-> r = emptyResult)
  /\ (r ≠ emptyResult ->
      concentrationLevel r = getConcentrationLevel (hhi r)).
Proof.
  rewrite calculateHHI_of_spec.
  assert (r = emptyResult ->
          (concentrationLevel r = "No active holders" <-> r = emptyResult)
          /\ (holderCount r = 0%nat <-> r = emptyResult)
          /\ (r ≠ emptyResult ->
              concentrationLevel r = getConcentrationLevel (hhi r)))
    as Hempty by (intros ->; done).
  destruct holders as [|h rest]; [intros [= <-]; by apply Hempty|].
  destruct (firstMalformed (h :: rest)); [done|].
  destruct (total (h :: rest) =? 0); intros [= <-]; [by apply Hempty|].
  assert (hhiRecord (h :: rest) ≠ emptyResult) as Hne
    by by apply hhiRecord_not_empty.
  split; [|split; [|done]]; (split; [|done]).
  - rewrite hhiRecord_level. by intros ?%getConcentrationLevel_active.
  - done.
Qed.

(** Scenario A carries a level. *)
Lemma no_active_holders_scenarioA :
  exists r,
    calculateHHI_of scenarioA = Normal r
    /\ concentrationLevel r ≠ "No active holders"
    /\ holderCount r ≠ 0%nat.
Proof.
  eexists. split; [vm_compute; reflexivity|].
  edestruct (no_active_holders_iff scenarioA) as (Hlabel & Hcount & _);
    [vm_compute; reflexivity|].
  split; [intros H; apply Hlabel in H|intros H; apply Hcount in H];
    discriminate H.
Defined.

(** ** Shares *)

Lemma scaledShare_bounds a T :
  0 < T ->
  scaledShare a T * T <= a * 1000000 < (scaledShare a T + 1) * T.
Proof.
  intros HT. unfold scaledShare.
  pose proof (Z.mul_div_le (a * 1000000) T HT).
  pose proof (Z.mul_succ_div_gt (a * 1000000) T HT). lia.
Qed.

Lemma scaledShare_sum T l :
  0 < T ->
  sumZ ((fun a => scaledShare a T) <$> l) * T <= sumZ l * 1000000
  /\ sumZ l * 1000000 + Z.of_nat (length l)
     <= (sumZ ((fun a => scaledShare a T) <$> l) + Z.of_nat (length l)) * T.
Proof.
  intros HT. induction l as [|a l [IH1 IH2]]; [done|].
  rewrite fmap_cons, !sumZ_cons. cbn [length]. rewrite Nat2Z.inj_succ.
  pose proof (scaledShare_bounds a T HT). lia.
Qed.

(** X7: the shares that step 3 takes, in millionths of the supply, add up
    to at most 1000000 and to more than 1000000 less the number of holders;
    the percentage of a holder is the number nearest to its share divided by
    10000, and each share lies between 0 and 1000000. *)
Theorem shares_add_up holders T :
  Forall unsignedAmount holders ->
  sumAmounts holders = Normal T -> 0 < T ->
  1000000 - Z.of_nat (length holders)
  < sumZ ((fun h => scaledShare (amountZ h) T) <$> holders) <= 1000000
  /\ forall h hhiSum,
       h ∈ holders ->
       0 <= scaledShare (amountZ h) T <= 1000000
       /\ exists hhiSum' t,
            withPercentage T hhiSum h = Normal (hhiSum', t)
            /\ percentage t
               = binary64 (Qmake (scaledShare (amountZ h) T) 10000).
Proof.
  intros Hu Hsum HT. pose proof Hsum as [Hparse ->]%sumAmounts_Normal.
  split.
  - pose proof (scaledShare_sum (total holders) (amountZ <$> holders) HT)
      as [Hup Hlow].
    rewrite <- list_fmap_compose, length_fmap in *.
    fold (total holders) in *.
    change ((fun a => scaledShare a (total holders)) ∘ amountZ)
      with (fun h => scaledShare (amountZ h) (total holders)) in *.
    assert (0 < Z.of_nat (length holders)).
    { destruct holders; [unfold total in HT; cbn in HT; lia|cbn; lia]. }
    nia.
  - intros h hhiSum Hin.
    pose proof (holder_le_total holders h Hu Hin) as Hle.
    pose proof (scaledShare_bounds (amountZ h) (total holders) HT) as Hb.
    split; [split; nia|].
    apply firstMalformed_None in Hparse.
    destruct (proj1 (Forall_forall _ _) Hparse h Hin) as [a Ha].
    rewrite (withPercentage_Some _ _ _ a Ha). do 2 eexists. split; [done|].
    cbn [percentage shareOf]. rewrite scaled_share_exact by done.
    apply fdiv_ten_thousandths.
Qed.

(** Thirds: the shares 333333 and 666666 add up to 999999. *)
Lemma shares_add_up_thirds :
  1000000 - 2
  < sumZ ((fun h => scaledShare (amountZ h) 3)
          <$> [ {| account := "A"; amount := "1" |};
                {| account := "B"; amount := "2" |} ]) <= 1000000
  /\ sumZ ((fun h => scaledShare (amountZ h) 3)
           <$> [ {| account := "A"; amount := "1" |};
                 {| account := "B"; amount := "2" |} ]) = 999999.
Proof.
  split; [|reflexivity].
  apply (shares_add_up [ {| account := "A"; amount := "1" |};
                         {| account := "B"; amount := "2" |} ] 3);
    [|reflexivity..].
  repeat constructor; eexists; (split; [reflexivity|discriminate]).
Defined.

(** * The controller *)

Import HhiController.

Lemma isValidSolanaAddress_nonempty s :
  isValidSolanaAddress s = true -> s ≠ EmptyString.
Proof. by intros H ->. Qed.

(** X8: [getHHI] answers 400 exactly when the query value is not a string of
    32 to 44 base58 characters, and then without consulting the service;
    otherwise it answers 200 with the result when the service returns one
    and 500 with the message of the error when the service throws. *)
Theorem getHHI_statuses svc mint :
  (validMint mint = false ->
   exists m,
     forall svc',
       getHHI svc' mint = Some {| status := 400; body := Failure m None |})
  /\ (forall reply,
        getHHI svc mint = Some reply ->
        (status reply = 400%nat <-> validMint mint = false)
        /\ (status reply = 200%nat <->
            exists s r,
              mint = Text s
              /\ svc_calculateHHI svc s = Some (Normal r)
              /\ body reply = Success r)
        /\ (status reply = 500%nat <->
            exists s e,
              mint = Text s
              /\ svc_calculateHHI svc s = Some (Throw e)
              /\ body reply
                 = Failure (errorMessage e) (Some (message e)))).
Proof.
  split.
  - destruct mint as [|s|]; cbn [validMint getHHI]; [by eexists| |by eexists].
    intros Hs. destruct (String.eqb s EmptyString); [by eexists|].
    rewrite Hs. by eexists.
  - assert (forall P Q : Prop,
              (P -> False) -> (Q -> False) ->
              (400%nat = 400%nat <-> false = false)
              /\ (400%nat = 200%nat <-> P) /\ (400%nat = 500%nat <-> Q))
      as Hrefused by (intros; repeat split; done).
    intros reply. destruct mint as [|s|]; cbn [validMint getHHI].
    1, 3: intros [= <-]; cbn; apply Hrefused;
      by intros (? & ? & ? & _).
    destruct (String.eqb_spec s EmptyString) as [->|Hne].
    { intros [= <-]; cbn. apply Hrefused;
        intros (? & ? & _ & _ & Hb); discriminate Hb. }
    destruct (isValidSolanaAddress s) eqn:Hs; cbn [negb].
    + destruct (svc_calculateHHI svc s) as [[r|e]|] eqn:Hsvc; [| |done];
        intros [= <-]; cbn.
      * split; [done|]. split.
        -- split; [eauto|done].
        -- split; [done|]. intros (s' & e & [= <-] & He & _). congruence.
      * split; [done|]. split.
        -- split; [done|]. intros (s' & r & [= <-] & Hr & _). congruence.
        -- split; [eauto|done].
    + intros [= <-]; cbn. apply Hrefused;
        intros (? & ? & _ & _ & Hb); discriminate Hb.
Qed.

(** A mint with the letter l is refused; the USDC mint is passed on, and the
    reply carries what the service computed. *)
Lemma getHHI_statuses_examples :
  (forall svc,
     exists m,
       getHHI svc (Text "EPjFWdd5AufqSSqeM2qN1xzybapC8G4wEGGkZwyTDt1l")
       = Some {| status := 400; body := Failure m None |})
  /\ exists reply,
       getHHI (SolanaService 1 mixedUpstream)
              (Text "EPjFWdd5AufqSSqeM2qN1xzybapC8G4wEGGkZwyTDt1v")
       = Some reply
       /\ exists s r,
            Text "EPjFWdd5AufqSSqeM2qN1xzybapC8G4wEGGkZwyTDt1v" = Text s
            /\ svc_calculateHHI (SolanaService 1 mixedUpstream) s
               = Some (Normal r)
            /\ body reply = Success r.
Proof.
  split.
  - intros svc.
    destruct (getHHI_statuses svc
                (Text "EPjFWdd5AufqSSqeM2qN1xzybapC8G4wEGGkZwyTDt1l"))
      as [Hrefused _].
    destruct (Hrefused eq_refl) as [m Hm]. exists m. apply Hm.
  - destruct (getHHI_statuses
                (SolanaService 1 mixedUpstream)
                (Text "EPjFWdd5AufqSSqeM2qN1xzybapC8G4wEGGkZwyTDt1v"))
      as [_ Hall].
    eexists. split; [vm_compute; reflexivity|].
    match goal with
    | |- exists s r, _ /\ _ /\ body ?x = _ =>
        destruct (Hall x) as (_ & H200 & _); [vm_compute; reflexivity|]
    end.
    apply H200. reflexivity.
Defined.

(** The occurrences of a word in a message around a foreign text: the
    three words that [getHHI] looks for occur in the message of a conversion
    failure only inside the rendered amount. *)
Ltac literals :=
  repeat match goal with
         | |- context [text_of ?s] =>
             let t := eval vm_compute in (text_of s) in
             progress change (text_of s) with t
         end.

Ltac startsWith_cases l :=
  literals;
  repeat (destruct l as [|? l];
          [reflexivity
          |cbn [app startsWith]; destruct (N.eqb _ _); [|reflexivity];
           cbn [andb]]);
  by destruct l.

Lemma startsWith_invalid_token (l : text) :
  startsWith (l ++ text_of " to a BigInt") (text_of "Invalid token")
  = startsWith l (text_of "Invalid token").
Proof. startsWith_cases l. Qed.

Lemma startsWith_not_found (l : text) :
  startsWith (l ++ text_of " to a BigInt") (text_of "not found")
  = startsWith l (text_of "not found").
Proof. startsWith_cases l. Qed.

Lemma startsWith_api_error (l : text) :
  startsWith (l ++ text_of " to a BigInt") (text_of "API Error")
  = startsWith l (text_of "API Error").
Proof. startsWith_cases l. Qed.

Lemma includes_conversionFailure bad (sub : string) :
  sub = "Invalid token" \/ sub = "not found" \/ sub = "API Error" ->
  includes (conversionFailure bad) sub = includes (rendered bad) sub.
Proof.
  intros Hsub. unfold conversionFailure. generalize (rendered bad).
  intros shown.
  assert (includes (shown ++ text_of " to a BigInt") sub = includes shown sub)
    as Hshown.
  { induction shown as [|c shown IH].
    - by destruct Hsub as [->|[->| ->]].
    - change (startsWith ((c :: shown) ++ text_of " to a BigInt") sub
              || includes (shown ++ text_of " to a BigInt") sub
              = startsWith (c :: shown) sub || includes shown sub).
      rewrite IH. f_equal.
      destruct Hsub as [->|[->| ->]];
        auto using startsWith_invalid_token, startsWith_not_found,
          startsWith_api_error. }
  rewrite <- Hshown. generalize (shown ++ text_of " to a BigInt").
  intros rest. by destruct Hsub as [->|[->| ->]].
Qed.

(** The controller passes a well-formed mint to the service. *)
Lemma getHHI_valid svc s :
  isValidSolanaAddress s = true ->
  getHHI svc (Text s)
  = outcome ← svc_calculateHHI svc s;
    Some match outcome with
         | Normal result => {| status := 200; body := Success result |}
         | Throw e =>
             {| status := 500;
                body := Failure (errorMessage e) (Some (message e)) |}
         end.
Proof.
  intros Hs. cbn [getHHI]. rewrite Hs.
  destruct (String.eqb_spec s EmptyString) as [->|_]; [done|].
  cbn [negb]. by destruct (svc_calculateHHI svc s) as [[r|e]|].
Qed.

Lemma errorMessage_conversionFailure bad :
  errorMessage (Error (conversionFailure bad))
  = if includes (rendered bad) "Invalid token"
       || includes (rendered bad) "not found"
    then text_of
      "The specified token mint address was not found or is invalid"
    else if includes (rendered bad) "API Error"
    then text_of "Error connecting to Solana RPC service"
    else conversionFailure bad.
Proof.
  unfold errorMessage. cbn [message].
  by rewrite !includes_conversionFailure by auto.
Qed.

(** X9: behind the controller, [SolanaService] makes a 500 only out of an
    amount that [BigInt] rejects: the reply to a well-formed mint is 200 with
    the result computed from the fetched records, unless one of their
    amounts is malformed; then it is 500, [error] is the message of the
    conversion failure around the first such amount as the engine renders
    it (cut after 1000 code units, with an ellipsis), and [message] is the
    same text unless the rendered amount contains "Invalid token", "not
    found" or "API Error".  With canonical amounts upstream every reply is
    200. *)
Theorem getHHI_service_replies fuel up s reply :
  isValidSolanaAddress s = true ->
  getHHI (SolanaService fuel up) (Text s) = Some reply ->
  (exists holders log,
     getAllTokenHolders fuel up s DEFAULT_PAGE_SIZE
     = Some (Normal holders, log)
     /\ match firstMalformed holders with
        | None =>
            exists r,
              calculateHHI_of holders = Normal r
              /\ reply = {| status := 200; body := Success r |}
        | Some bad =>
            reply
            = {| status := 500;
                 body :=
      Failure
        (if includes (rendered bad) "Invalid token"
            || includes (rendered bad) "not found"
         then text_of
           "The specified token mint address was not found or is invalid"
         else if includes (rendered bad) "API Error"
         then text_of "Error connecting to Solana RPC service"
         else conversionFailure bad)
        (Some (conversionFailure bad)) |}
        end)
  /\ (canonicalUpstream up -> status reply = 200%nat).
Proof.
  intros Hs. rewrite (getHHI_valid _ s Hs).
  cbn [svc_calculateHHI SolanaService].
  destruct (getAllTokenHolders fuel up s DEFAULT_PAGE_SIZE)
    as [[fetched log]|] eqn:Hrun;
    [|unfold calculateHHI; by rewrite Hrun].
  destruct (getAllTokenHolders_returned _ _ _ _ _ _ Hrun)
    as (k & _ & _ & _ & -> & _).
  rewrite (calculateHHI_fetched _ _ _ _ _ Hrun), calculateHHI_of_spec.
  cbn [mbind option_bind].
  set (holders := recordsUpTo up s DEFAULT_PAGE_SIZE (S k)).
  assert (canonicalUpstream up -> firstMalformed holders = None) as Hcanon.
  { intros Hup. apply firstMalformed_None.
    eapply Forall_impl; [by apply canonical_records|].
    intros h (a & -> & _). by eexists. }
  assert (firstMalformed [] = None) as Hnil by done.
  destruct holders as [|h rest] eqn:Hholders.
  - intros [= <-]. split; [|done].
    exists [], log. rewrite Hnil. eauto.
  - rewrite <- Hholders in *. clear Hnil.
    destruct (firstMalformed holders) as [bad|] eqn:Hbad.
    + intros [= <-]. split; [|by intros [=]%Hcanon].
      exists holders, log. rewrite Hbad. split; [done|].
      fold (conversionFailure bad).
      by rewrite <- errorMessage_conversionFailure.
    + pose proof (calculateHHI_of_spec holders) as Hspec.
      rewrite Hbad, Hholders in Hspec. rewrite <- Hholders in Hspec.
      destruct (total holders =? 0); intros [= <-]; (split; [|done]);
        exists holders, log; rewrite Hbad; eauto.
Qed.

(** An amount in scientific notation makes a 500 that names it. *)
Lemma getHHI_service_malformed :
  isValidSolanaAddress exampleMint = true
  /\ getHHI (SolanaService 1 malformedUpstream) (Text exampleMint)
     = Some {| status := 500;
               body := Failure (conversionFailure "1e3")
                               (Some (conversionFailure "1e3")) |}
  /\ exists holders log,
       getAllTokenHolders 1 malformedUpstream exampleMint DEFAULT_PAGE_SIZE
       = Some (Normal holders, log)
       /\ firstMalformed holders = Some "1e3".
Proof.
  split; [reflexivity|]. split; [vm_compute; reflexivity|].
  destruct (getHHI_service_replies 1 malformedUpstream exampleMint
              {| status := 500;
                 body := Failure (conversionFailure "1e3")
                                 (Some (conversionFailure "1e3")) |})
    as [(holders & log & Hrun & Hreply) _];
    [reflexivity|vm_compute; reflexivity|].
  exists holders, log. split; [exact Hrun|].
  vm_compute in Hrun. injection Hrun as <- _. reflexivity.
Defined.

(** X10: a service that cannot be reached is not reported: when the request
    for the first page fails (transport failure, error envelope or an
    account that cannot be decoded), the reply to a well-formed mint is 200
    with the empty sentinel. *)
Theorem getHHI_unreachable_service fuel up s :
  isValidSolanaAddress s = true ->
  fails up s DEFAULT_PAGE_SIZE 0 = true ->
  (0 < fuel)%nat ->
  getHHI (SolanaService fuel up) (Text s)
  = Some {| status := 200; body := Success emptyResult |}.
Proof.
  intros Hs Hfail Hfuel. rewrite (getHHI_valid _ s Hs).
  cbn [svc_calculateHHI SolanaService].
  pose proof (getAllTokenHolders_run up s DEFAULT_PAGE_SIZE 0 fuel) as Hrun.
  rewrite (calculateHHI_fetched _ _ _ _ _ (Hrun ltac:(lia)
             (fails_continues _ _ _ _ Hfail) Hfuel)).
  rewrite recordsUpTo_S, (fails_recordsOf _ _ _ _ Hfail).
  done.
Qed.

Lemma getHHI_unreachable_example :
  isValidSolanaAddress exampleMint = true
  /\ fails unreachable exampleMint DEFAULT_PAGE_SIZE 0 = true
  /\ (0 < 1)%nat
  /\ getHHI (SolanaService 1 unreachable) (Text exampleMint)
     = Some {| status := 200; body := Success emptyResult |}.
Proof.
  split; [reflexivity|]. split; [reflexivity|]. split; [lia|].
  apply getHHI_unreachable_service; [reflexivity..|lia].
Defined.

(** * The page *)

Import HhiCalculator.

(** X11: the colour of the index on the page agrees with the label of the
    service: a result of [calculateHHI] is shown in green exactly when its
    label is "Decentralized" or "No active holders", in yellow exactly when
    it is "Moderate concentration", and in red exactly when it is "High
    concentration" or "Extreme concentration (risk of manipulation)". *)
Theorem colour_agrees_with_level holders r :
  calculateHHI_of holders = Normal r ->
  (getHhiColorClass (hhi r) = "text-green-400"
   <-> concentrationLevel r = "Decentralized"
       \/ concentrationLevel r = "No active holders")
  /\ (getHhiColorClass (hhi r) = "text-yellow-400"
      <-> concentrationLevel r = "Moderate concentration")
  /\ (getHhiColorClass (hhi r) = "text-red-400"
      <-> concentrationLevel r = "High concentration"
          \/ concentrationLevel r
             = "Extreme concentration (risk of manipulation)").
Proof.
  assert (forall h level,
            level = getConcentrationLevel h ->
            (getHhiColorClass h = "text-green-400"
             <-> level = "Decentralized" \/ level = "No active holders")
            /\ (getHhiColorClass h = "text-yellow-400"
                <-> level = "Moderate concentration")
            /\ (getHhiColorClass h = "text-red-400"
                <-> level = "High concentration"
                    \/ level
                       = "Extreme concentration (risk of manipulation)"))
    as Hactive.
  { intros h level ->. unfold getHhiColorClass, getConcentrationLevel.
    destruct (Z.ltb_spec h 1500), (Z.ltb_spec h 2500), (Z.leb_spec 5000 h),
      (Z.leb_spec 2500 h), (Z.leb_spec 1500 h); try lia;
      repeat split; try done; try (by intros [|]); auto. }
  rewrite calculateHHI_of_spec.
  destruct holders as [|h rest]; [by intros [= <-]; vm_compute; intuition|].
  destruct (firstMalformed (h :: rest)); [done|].
  destruct (total (h :: rest) =? 0).
  - by intros [= <-]; vm_compute; intuition.
  - intros [= <-]. by apply Hactive.
Qed.

Lemma colour_agrees_scenarioB :
  exists r,
    calculateHHI_of scenarioB = Normal r
    /\ getHhiColorClass (hhi r) = "text-red-400"
    /\ concentrationLevel r = "High concentration".
Proof.
  eexists. split; [vm_compute; reflexivity|].
  split; [reflexivity|].
  match goal with
  | |- concentrationLevel ?r = _ =>
      destruct (colour_agrees_with_level scenarioB r) as (_ & _ & [Hred _]);
        [vm_compute; reflexivity|]
  end.
  by destruct (Hred eq_refl).
Defined.

(** ** Slices of a string *)

Lemma string_app_cons c (s t : string) : String c s +:+ t = String c (s +:+ t).
Proof. done. Qed.

Lemma string_app_empty_r (s : string) : s +:+ EmptyString = s.
Proof. induction s as [|c s IH]; [done|]. by rewrite string_app_cons, IH. Qed.

Lemma length_string_app (s t : string) :
  String.length (s +:+ t) = (String.length s + String.length t)%nat.
Proof.
  induction s as [|c s IH]; [done|]. rewrite string_app_cons. cbn.
  by rewrite IH.
Qed.

(** [s.slice(0, n)] is a prefix of [s]. *)
Lemma substring_prefix n s :
  exists rest,
    s = String.substring 0 n s +:+ rest
    /\ String.length (String.substring 0 n s)
       = (n `min` String.length s)%nat.
Proof.
  revert s. induction n as [|n IH]; intros s.
  - exists s. by destruct s.
  - destruct s as [|c s]; [by exists EmptyString|].
    destruct (IH s) as (rest & Hrest & Hlen). exists rest.
    cbn [String.substring]. rewrite string_app_cons, <- Hrest. cbn.
    by rewrite Hlen.
Qed.

(** [s.slice(m)] is a suffix of [s]. *)
Lemma substring_suffix m n s :
  (m + n = String.length s)%nat ->
  exists front,
    s = front +:+ String.substring m n s
    /\ String.length front = m
    /\ String.length (String.substring m n s) = n.
Proof.
  revert s. induction m as [|m IH]; intros s Hlen.
  - exists EmptyString. cbn [plus] in Hlen. subst n.
    destruct (substring_prefix (String.length s) s) as (rest & Hrest & Hl).
    rewrite Nat.min_id in Hl.
    assert (rest = EmptyString) as ->.
    { apply (f_equal String.length) in Hrest.
      rewrite length_string_app, Hl in Hrest.
      destruct rest; [done|cbn in Hrest; lia]. }
    rewrite string_app_empty_r in Hrest. split; [exact Hrest|done].
  - destruct s as [|c s]; [done|]. cbn in Hlen.
    destruct (IH s) as (front & Hfront & Hl & Hn); [lia|].
    exists (String c front). cbn [String.substring String.length].
    rewrite string_app_cons, <- Hfront. by rewrite Hl.
Qed.

Lemma substring_skip front s m n :
  String.substring (String.length front + m) n (front +:+ s)
  = String.substring m n s.
Proof. induction front as [|c front IH]; [done|]. exact IH. Qed.

(** X12: [truncateAddress] keeps the first four and the last four characters
    of an address of at least eight characters, around three dots; in
    general the result for a non-empty address has 3 + 2 * min(4, length)
    characters. *)
Theorem truncateAddress_parts address :
  (address <> EmptyString ->
   String.length (truncateAddress address)
   = (3 + 2 * (4 `min` String.length address))%nat)
  /\ ((8 <= String.length address)%nat ->
      exists first middle last,
        address = first +:+ middle +:+ last
        /\ String.length first = 4%nat
        /\ String.length last = 4%nat
        /\ truncateAddress address = first +:+ "..." +:+ last).
Proof.
  unfold truncateAddress.
  destruct (String.eqb_spec address EmptyString) as [->|Hne];
    [split; [done|cbn; lia]|].
  destruct (substring_prefix 4 address) as (rest & Hrest & Hfirst).
  split.
  - intros _. rewrite !length_string_app, Hfirst.
    destruct (le_lt_dec (String.length address) 4) as [Hshort|Hlong].
    + replace (String.length address - 4)%nat with 0%nat by lia.
      rewrite Hfirst. cbn [String.length]. lia.
    + destruct (substring_suffix (String.length address - 4) 4 address)
        as (front & _ & _ & ->); [lia|].
      cbn [String.length]. lia.
  - intros Hlen.
    assert (String.length rest = (String.length address - 4)%nat) as Hl.
    { apply (f_equal String.length) in Hrest.
      rewrite length_string_app, Hfirst in Hrest. lia. }
    destruct (substring_suffix (String.length rest - 4) 4 rest)
      as (middle & Hmiddle & _ & Hlast); [lia|].
    exists (String.substring 0 4 address), middle,
      (String.substring (String.length rest - 4) 4 rest).
    split; [by rewrite <- Hmiddle|].
    split; [rewrite Hfirst; lia|]. split; [done|].
    do 2 f_equal. rewrite Hrest at 2.
    replace (String.length address - 4)%nat
      with (String.length (String.substring 0 4 address)
            + (String.length rest - 4))%nat by lia.
    apply substring_skip.
Qed.

Lemma truncateAddress_example :
  exampleMint <> EmptyString
  /\ (8 <= String.length exampleMint)%nat
  /\ String.length (truncateAddress exampleMint) = 11%nat
  /\ exists first middle last,
       exampleMint = first +:+ middle +:+ last
       /\ String.length first = 4%nat
       /\ String.length last = 4%nat
       /\ truncateAddress exampleMint = first +:+ "..." +:+ last.
Proof.
  destruct (truncateAddress_parts exampleMint) as [Hlen Hparts].
  split; [done|]. split; [vm_compute; lia|].
  split; [exact (Hlen ltac:(done))|]. apply Hparts. vm_compute. lia.
Defined.

(** X13: the pie chart shows the first nine of [topHolders], in their order,
    and at most one more entry, "Others", which is there only when
    [holderCount] exceeds 9 and which has a positive value; so the chart has
    at most ten entries, and since [COLORS] has ten distinct colours no two
    entries get the same one. *)
Theorem getPieChartData_shape r :
  (exists others,
     getPieChartData (Some r) = (sliceOf <$> take 9 (topHolders r)) ++ others
     /\ (others = []
         \/ exists v,
              others = [ {| name := "Others"; value := v;
                            fullAddress := "Multiple accounts" |} ]
              /\ (0 < v)%Q /\ (9 < holderCount r)%nat))
  /\ (length (getPieChartData (Some r)) <= 10)%nat
  /\ (forall i j,
        (i < j < length (getPieChartData (Some r)))%nat ->
        is_Some (cellColor i) /\ is_Some (cellColor j)
        /\ cellColor i <> cellColor j).
Proof.
  assert (exists others,
            getPieChartData (Some r)
            = (sliceOf <$> take 9 (topHolders r)) ++ others
            /\ (others = []
                \/ exists v,
                     others = [ {| name := "Others"; value := v;
                                   fullAddress := "Multiple accounts" |} ]
                     /\ (0 < v)%Q /\ (9 < holderCount r)%nat)) as Hshape.
  { cbn [getPieChartData]. fold sliceOf.
    destruct (Nat.ltb_spec 9 (holderCount r)) as [Hmany|Hfew];
      [|exists []; by rewrite app_nil_r; auto].
    match goal with
    | |- context [Qle_bool ?v 0] =>
        destruct (Qle_bool v 0) eqn:Hv; cbn [negb];
        [exists []; by rewrite app_nil_r; auto|]
    end.
    eexists. split; [done|]. right. eexists. split; [done|].
    split; [|done]. apply Qnot_le_lt. intros Hle%Qle_bool_iff. congruence. }
  split; [exact Hshape|].
  destruct Hshape as (others & -> & Hothers).
  assert (length ((sliceOf <$> take 9 (topHolders r)) ++ others) <= 10)%nat
    as Hlen.
  { rewrite length_app, length_fmap, length_take.
    destruct Hothers as [->|(v & -> & _)]; cbn [length]; lia. }
  split; [exact Hlen|].
  intros i j Hij. unfold cellColor.
  change (length COLORS) with 10%nat.
  rewrite !Nat.mod_small by lia.
  assert (NoDup COLORS) as Hdistinct
    by (by apply (bool_decide_unpack (NoDup COLORS))).
  destruct (lookup_lt_is_Some_2 COLORS i) as [ci Hi];
    [change (length COLORS) with 10%nat; lia|].
  destruct (lookup_lt_is_Some_2 COLORS j) as [cj Hj];
    [change (length COLORS) with 10%nat; lia|].
  rewrite Hi, Hj. split; [by eexists|]. split; [by eexists|].
  intros [= ->]. pose proof (NoDup_lookup _ _ _ _ Hdistinct Hi Hj). lia.
Qed.

(** ** Submitting a mint *)

Lemma or_else_nonempty a b : b <> [] -> or_else a b <> [].
Proof. by destruct a as [[|c s]|]. Qed.

(** X14: [handleSubmit] sends no request for an input that is not, once
    trimmed, a string of 32 to 44 base58 characters: it sets an error and
    leaves [result] and [loading] as they are, whatever the server would
    answer.  For any other input the state after the answer has [loading]
    off and exactly one of [error] and [result].  An error shown is never
    the empty string, and the text of the input is never changed. *)
Theorem handleSubmit_outcome send st st' :
  handleSubmit send st = Some st' ->
  mintAddress st' = mintAddress st
  /\ (forall m, error st' = Some m -> m <> [])
  /\ if HhiCalculator.isValidSolanaAddress (trim (mintAddress st))
     then loading st' = false
          /\ (error st' = None <-> is_Some (result st'))
     else is_Some (error st')
          /\ result st' = result st
          /\ loading st' = loading st
          /\ forall send', handleSubmit send' st = Some st'.
Proof.
  unfold handleSubmit.
  destruct (String.eqb_spec (trim (mintAddress st)) EmptyString)
    as [Hempty|Hne].
  { rewrite Hempty. intros [= <-]; cbn. repeat split; eauto.
    by intros m [= <-]. }
  destruct (HhiCalculator.isValidSolanaAddress (trim (mintAddress st)));
    cbn [negb].
  - assert (forall msg,
              msg <> [] ->
              let st' := {| mintAddress := mintAddress st; loading := false;
                            error := Some msg; result := None |} in
              mintAddress st' = mintAddress st
              /\ (forall m, error st' = Some m -> m <> [])
              /\ loading st' = false
              /\ (error st' = None <-> is_Some (result st'))) as Hfailed.
    { intros msg Hmsg. cbn. split; [done|]. split; [by intros m [= <-]|].
      split; [done|]. split; [done|by intros [? [=]]]. }
    destruct (send (trim (mintAddress st))) as [[[data|m e]|code m| |m]|];
      [..|done]; intros [= <-].
    + cbn. split; [done|]. split; [done|]. split; [done|].
      split; [by eexists|done].
    + apply Hfailed. by apply (or_else_nonempty (Some m)).
    + apply Hfailed. by apply (or_else_nonempty m).
    + by apply Hfailed.
    + apply Hfailed. by apply (or_else_nonempty (Some m)).
  - intros [= <-]; cbn. repeat split; eauto. by intros m [= <-].
Qed.

(** An input that is too short is refused without a request; a mint behind
    a no-break space is trimmed and sent. *)
Lemma handleSubmit_examples :
  (forall send,
     handleSubmit send
       {| mintAddress := " So111 "; loading := false; error := None;
          result := Some emptyResult |}
     = Some {| mintAddress := " So111 "; loading := false;
               error :=
                 Some (text_of "Invalid Solana token mint address format");
               result := Some emptyResult |})
  /\ exists st',
       handleSubmit
         (fun mint =>
            if String.eqb mint exampleMint
            then Some (Resolved (Success emptyResult)) else None)
         {| mintAddress := String "160" exampleMint; loading := true;
            error := None; result := None |}
       = Some st'
       /\ loading st' = false
       /\ (error st' = None <-> is_Some (result st')).
Proof.
  split.
  - apply (handleSubmit_outcome
             (fun _ => Some RejectedRequest)
             {| mintAddress := " So111 "; loading := false; error := None;
                result := Some emptyResult |}
             {| mintAddress := " So111 "; loading := false;
                error :=
                  Some (text_of "Invalid Solana token mint address format");
                result := Some emptyResult |}
             eq_refl).
  - eexists. split; [vm_compute; reflexivity|].
    eapply (handleSubmit_outcome
              (fun mint =>
                 if String.eqb mint exampleMint
                 then Some (Resolved (Success emptyResult)) else None)
              {| mintAddress := String "160" exampleMint; loading := true;
                 error := None; result := None |}).
    vm_compute. reflexivity.
Defined.

(** ** The page over the controller *)

(** The page and the controller test the same expression. *)
Lemma isValidSolanaAddress_same s :
  HhiCalculator.isValidSolanaAddress s = HhiController.isValidSolanaAddress s.
Proof. done. Qed.

Lemma errorMessage_nonempty e : message e <> [] -> errorMessage e <> [].
Proof.
  unfold errorMessage. destruct (_ || _); [done|]. by destruct (includes _ _).
Qed.

Lemma handleSubmit_served svc st :
  HhiCalculator.isValidSolanaAddress (trim (mintAddress st)) = true ->
  handleSubmit (served svc) st
  = outcome ← svc_calculateHHI svc (trim (mintAddress st));
    Some match outcome with
         | Normal r =>
             {| mintAddress := mintAddress st; loading := false;
                error := None; result := Some r |}
         | Throw e =>
             {| mintAddress := mintAddress st; loading := false;
                error := Some (or_else (Some (errorMessage e))
                                       "Server error: 500");
                result := None |}
         end.
Proof.
  intros Hs. unfold handleSubmit, served. rewrite Hs.
  rewrite (getHHI_valid svc _ Hs).
  destruct (String.eqb_spec (trim (mintAddress st)) EmptyString)
    as [Hempty|_]; [by rewrite Hempty in Hs|].
  cbn [negb]. by destruct (svc_calculateHHI svc _) as [[r|e]|].
Qed.

(** X15: the page over the controller.  An input that passes the check of
    the page passes the check of the controller, so that the page is never
    answered 400: after the answer it shows the result of the service, or,
    when the service threw, the message that the controller made of the
    error (or "Server error: 500" when that message is empty). *)
Theorem page_shows_service_outcome svc st st' :
  HhiCalculator.isValidSolanaAddress (trim (mintAddress st)) = true ->
  handleSubmit (served svc) st = Some st' ->
  (exists reply,
     getHHI svc (Text (trim (mintAddress st))) = Some reply
     /\ status reply <> 400%nat)
  /\ ((exists r,
         svc_calculateHHI svc (trim (mintAddress st)) = Some (Normal r)
         /\ result st' = Some r /\ error st' = None)
      \/ (exists e,
            svc_calculateHHI svc (trim (mintAddress st)) = Some (Throw e)
            /\ result st' = None
            /\ error st'
               = Some match errorMessage e with
                      | [] => text_of "Server error: 500"
                      | m => m
                      end)).
Proof.
  intros Hs. rewrite (handleSubmit_served svc st Hs), (getHHI_valid svc _ Hs).
  destruct (svc_calculateHHI svc _) as [[r|e]|]; [| |done]; intros [= <-].
  - split; [by eexists|]. left. by exists r.
  - split; [by eexists|]. right. exists e. cbn.
    do 2 (split; [done|]). by destruct (errorMessage e).
Qed.

Lemma page_shows_mixed_result :
  HhiCalculator.isValidSolanaAddress (trim (" " +:+ exampleMint)) = true
  /\ exists st',
       handleSubmit (served (SolanaService 1 mixedUpstream))
         {| mintAddress := " " +:+ exampleMint; loading := false;
            error := None; result := None |}
       = Some st'
       /\ exists r,
            calculateHHI 1 mixedUpstream exampleMint = Some (Normal r)
            /\ result st' = Some r /\ error st' = None.
Proof.
  split; [reflexivity|]. eexists. split; [vm_compute; reflexivity|].
  match goal with
  | |- exists r, _ /\ result ?st' = _ /\ _ =>
      destruct (page_shows_service_outcome
                  (SolanaService 1 mixedUpstream)
                  {| mintAddress := " " +:+ exampleMint; loading := false;
                     error := None; result := None |} st')
        as [_ [Hshown|(e & _ & Hnone & _)]];
        [reflexivity|vm_compute; reflexivity|exact Hshown|discriminate Hnone]
  end.
Defined.

(** ** The page over the service *)

Lemma calculateHHI_outcome fuel up s outcome :
  calculateHHI fuel up s = Some outcome ->
  exists holders log,
    getAllTokenHolders fuel up s DEFAULT_PAGE_SIZE
    = Some (Normal holders, log)
    /\ outcome = calculateHHI_of holders
    /\ match firstMalformed holders with
       | None => exists r, outcome = Normal r
       | Some bad => outcome = Throw (Error (conversionFailure bad))
       end.
Proof.
  destruct (getAllTokenHolders fuel up s DEFAULT_PAGE_SIZE)
    as [[fetched log]|] eqn:Hrun;
    [|unfold calculateHHI; by rewrite Hrun].
  destruct (getAllTokenHolders_returned _ _ _ _ _ _ Hrun)
    as (k & _ & _ & _ & -> & _).
  rewrite (calculateHHI_fetched _ _ _ _ _ Hrun). intros [= <-].
  eexists _, log. split; [done|]. split; [done|].
  rewrite calculateHHI_of_spec.
  destruct (recordsUpTo _ _ _ _) as [|h rest]; [by eexists|].
  destruct (firstMalformed (h :: rest)); [done|].
  destruct (total (h :: rest) =? 0); by eexists.
Qed.

(** X16: the page over [SolanaService].  For an input that passes the check
    of the page, the state after the answer shows the result computed from
    the fetched records and no error, unless one of their amounts is
    malformed; then it shows no result and the message of the conversion
    failure around the first such amount as the engine renders it, or one
    of the two fixed messages of the controller when the rendered amount
    contains "Invalid token", "not found" or "API Error".  A remote service
    that fails on the first page is shown as "No active holders", without
    an error. *)
Theorem page_over_service fuel up st st' :
  HhiCalculator.isValidSolanaAddress (trim (mintAddress st)) = true ->
  handleSubmit (served (SolanaService fuel up)) st = Some st' ->
  (exists holders log,
     getAllTokenHolders fuel up (trim (mintAddress st)) DEFAULT_PAGE_SIZE
     = Some (Normal holders, log)
     /\ match firstMalformed holders with
        | None =>
            error st' = None
            /\ exists r,
                 calculateHHI_of holders = Normal r /\ result st' = Some r
        | Some bad =>
            result st' = None
            /\ error st'
               = Some
        (if includes (rendered bad) "Invalid token"
            || includes (rendered bad) "not found"
         then text_of
           "The specified token mint address was not found or is invalid"
         else if includes (rendered bad) "API Error"
         then text_of "Error connecting to Solana RPC service"
         else conversionFailure bad)
        end)
  /\ (fails up (trim (mintAddress st)) DEFAULT_PAGE_SIZE 0 = true ->
      error st' = None /\ result st' = Some emptyResult).
Proof.
  intros Hs. rewrite (handleSubmit_served _ st Hs).
  cbn [svc_calculateHHI SolanaService].
  destruct (calculateHHI fuel up (trim (mintAddress st)))
    as [outcome|] eqn:Hrun; [|done].
  destruct (calculateHHI_outcome _ _ _ _ Hrun)
    as (holders & log & Hfetch & Hof & Hcases).
  cbn [mbind option_bind]. intros [= <-]. split.
  - exists holders, log. split; [done|].
    destruct (firstMalformed holders) as [bad|].
    + rewrite Hcases. cbn [result error]. split; [done|].
      rewrite errorMessage_conversionFailure.
      rewrite <- (errorMessage_conversionFailure bad).
      pose proof (errorMessage_nonempty (Error (conversionFailure bad))
                    ltac:(done)) as Hne.
      by destruct (errorMessage _).
    + destruct Hcases as [r ->]. cbn [result error]. split; [done|].
      exists r. by rewrite <- Hof.
  - intros Hfail.
    destruct (getAllTokenHolders_returned _ _ _ _ _ _ Hfetch)
      as (k & _ & Hgo & _ & [= ->] & _).
    destruct k as [|k].
    2: { pose proof (Hgo 0%nat ltac:(lia)) as Hfirst.
         by rewrite (fails_continues _ _ _ _ Hfail) in Hfirst. }
    rewrite recordsUpTo_S, (fails_recordsOf _ _ _ _ Hfail) in Hof.
    by rewrite Hof.
Qed.

Lemma page_over_unreachable_service :
  HhiCalculator.isValidSolanaAddress (trim exampleMint) = true
  /\ fails unreachable (trim exampleMint) DEFAULT_PAGE_SIZE 0 = true
  /\ exists st',
       handleSubmit (served (SolanaService 1 unreachable))
         {| mintAddress := exampleMint; loading := false;
            error := None; result := None |}
       = Some st'
       /\ error st' = None /\ result st' = Some emptyResult.
Proof.
  split; [reflexivity|]. split; [reflexivity|].
  eexists. split; [vm_compute; reflexivity|].
  match goal with
  | |- error ?st' = _ /\ _ =>
      destruct (page_over_service 1 unreachable
                  {| mintAddress := exampleMint; loading := false;
                     error := None; result := None |} st')
        as [_ Hshown]; [reflexivity|vm_compute; reflexivity|]
  end.
  apply Hshown. reflexivity.
Defined.

(** ** Balances *)

(** X17: [getTokenBalances] never throws: when it returns, it returns the
    records that [calculateHHI] works on, and none of them has an excluded
    owner or the amount "0". *)
Theorem getTokenBalances_returns fuel up mint outcome :
  getTokenBalances fuel up mint = Some outcome ->
  exists holders,
    outcome = Normal holders
    /\ Forall (fun h => (account h ∉ EXCLUDED_ADDRESSES) /\ amount h <> "0")
              holders
    /\ calculateHHI fuel up mint = Some (calculateHHI_of holders).
Proof.
  unfold getTokenBalances.
  destruct (getAllTokenHolders fuel up mint DEFAULT_PAGE_SIZE)
    as [[fetched log]|] eqn:Hrun; [|done].
  destruct (getAllTokenHolders_returned _ _ _ _ _ _ Hrun)
    as (k & _ & _ & _ & -> & _).
  intros [= <-]. eexists. split; [done|]. split.
  - apply Forall_forall. by intros h (_ & _ & _ & _ & ? & ?)%recordsUpTo_elem.
  - by apply (calculateHHI_fetched _ _ _ _ log).
Qed.

Lemma getTokenBalances_mixed :
  getTokenBalances 1 mixedUpstream "mint"
  = Some (Normal [ {| account := "A"; amount := "5" |};
                   {| account := "A"; amount := "9" |} ])
  /\ exists holders,
       Normal [ {| account := "A"; amount := "5" |};
                {| account := "A"; amount := "9" |} ] = Normal holders
       /\ Forall (fun h => (account h ∉ EXCLUDED_ADDRESSES)
                           /\ amount h <> "0") holders
       /\ calculateHHI 1 mixedUpstream "mint"
          = Some (calculateHHI_of holders).
Proof.
  split; [reflexivity|].
  by apply (getTokenBalances_returns 1 mixedUpstream "mint").
Defined.
